(** * http_benchmark: a shallow embedding of the load generator

    The development follows [http_benchmark.py] (classes [HTTPBenchmark]
    and [LoadGenerator]) and the data handling of [fire_bench.py].

    Conventions of the embedding.
    - Python [int] is [Z]; a Python [float] is the rational [Q] it
      stands for.  The float operations of the repository's own code (the
      latency of line 110 and the division of line 144) round to binary64,
      to nearest and ties to even, with [b64]; the exponent range is not
      modelled (no overflow, no subnormal numbers).  The conversion of
      the jitter to seconds (line 91) and the arithmetic inside numpy
      are exact.
    - [str] is [string], read as ASCII text: [upper] and [strip] are
      [str.upper()] and [str.strip()] on text whose characters are all
      below 128 ([ascii_text]); on other text the Python methods do more
      (Unicode case mapping, Unicode white space).
    - The outside world is an oracle that is passed in explicitly: wall
      clock and monotonic clock readings, the variate behind each numpy
      draw, and what the HTTP transport did with each request.
    - asyncio runs every task on one event loop, so the code between two
      [await]s is atomic.  A Concurrency Run is therefore a sequence of
      worker turns; the order of the turns is the interleaving chosen by
      the event loop and is part of the oracle.
    - Every call that reaches outside the process ([ClientSession],
      [create_task], [asyncio.sleep], [session.request]) is logged in a
      trace of effects. *)

From Stdlib Require Import ZArith QArith Qround Qabs Qpower List String Ascii Bool.
From Stdlib Require Import Lia Lqa DecimalString Sorted Permutation.
Import ListNotations.

Local Open Scope string_scope.
Local Open Scope Z_scope.

(** ** Python values and exceptions *)

Inductive PyExc : Type :=
| ZeroDivisionError
| ValueError (msg : string)
| ArgumentTypeError (msg : string)
| OSError (msg : string).

(** The [data] argument is typed [Any]; the callers in the repository pass
    [None], a [str], [bytes] or a [dict]. *)
Inductive Data : Type :=
| DataNone
| DataStr (s : string)
| DataBytes (b : string)
| DataDict (kv : list (string * string)).

Definition Headers : Type := option (list (string * string)).

(** Values stored in a metrics dict. *)
Inductive PyVal : Type :=
| PyInt (z : Z)
| PyStr (s : string).

(** A Python dict with [str] keys, in insertion order. *)
Definition Dict : Type := list (string * PyVal).

Fixpoint dict_get (d : Dict) (k : string) : option PyVal :=
  match d with
  | [] => None
  | (k', v) :: d' => if String.eqb k' k then Some v else dict_get d' k
  end.

(** [d[k] = v]: overwrite in place when the key exists, else append. *)
Fixpoint dict_set (d : Dict) (k : string) (v : PyVal) : Dict :=
  match d with
  | [] => [(k, v)]
  | (k', v') :: d' =>
      if String.eqb k' k then (k', v) :: d' else (k', v') :: dict_set d' k v
  end.

(** Result of a computation that may raise, or that is still waiting when
    the observed part of the world ends. *)
Inductive Res (A : Type) : Type :=
| Ok (a : A)
| Raise (e : PyExc)
| Pending.
Arguments Ok {A} a.
Arguments Raise {A} e.
Arguments Pending {A}.

(** ** Strings *)

(** [str.upper()] on ASCII text. *)
Definition upper_ascii (c : ascii) : ascii :=
  let n := nat_of_ascii c in
  if (andb (97 <=? n) (n <=? 122))%nat then ascii_of_nat (n - 32) else c.

Fixpoint upper (s : string) : string :=
  match s with
  | EmptyString => EmptyString
  | String c s' => String (upper_ascii c) (upper s')
  end.

(** Text whose characters are all ASCII (below 128). *)
Definition ascii_text (s : string) : bool :=
  forallb (fun c => (nat_of_ascii c <? 128)%nat) (list_ascii_of_string s).

(** [str(n)] for an [int]. *)
Definition str (n : Z) : string := NilZero.string_of_int (Z.to_int n).

(** ** Formatting a float with [:.2f] *)

Definition Qlt_bool (x y : Q) : bool := negb (Qle_bool y x).

(** Nearest integer, ties to the even one. *)
Definition round_half_even (x : Q) : Z :=
  let f := Qfloor x in
  match (x - inject_Z f ?= 1 # 2)%Q with
  | Lt => f
  | Gt => f + 1
  | Eq => if Z.even f then f else f + 1
  end.

(** The number of hundredths printed by [:.2f]. *)
Definition centi (x : Q) : Z := round_half_even (Qabs x * 100).

Definition two_digits (n : Z) : string :=
  (if n <? 10 then "0" else "") ++ str n.

(** [f"{x:.2f}"]. *)
Definition format_2f (x : Q) : string :=
  let c := centi x in
  (if Qlt_bool x 0 then "-" else "")
    ++ str (c / 100) ++ "." ++ two_digits (c mod 100).

(** ** Rounding to binary64 *)

(** The exponent of a positive rational: the floor of its logarithm in
    base 2. *)
Definition ilog2 (x : Q) : Z :=
  if Qle_bool 1 x then Z.log2 (Qfloor x)
  else - Z.log2_up (Qceiling (/ x)).

(** The double nearest to a rational, ties to the even significand: 53
    bits of significand, any exponent. *)
Definition b64 (x : Q) : Q :=
  if Qeq_bool x 0 then 0%Q
  else
    let e := ilog2 (Qabs x) in
    let m := round_half_even (Qabs x * 2 ^ (52 - e)) in
    let r := (inject_Z m * 2 ^ (e - 52))%Q in
    if Qlt_bool x 0 then (- r)%Q else r.

(** [a / b] for two [int]s, [b] not zero: the quotient, correctly rounded
    to a float. *)
Definition float_div (a b : Z) : Q := b64 (inject_Z a / inject_Z b).

(** ** numpy *)

(** [numpy.random.uniform(low, high)] returns [low + (high - low) * u]
    where [u] is the generator's next double in the unit interval. *)
Definition numpy_random_uniform (low high u : Q) : Q :=
  (low + (high - low) * u)%Q.

(** [numpy.random.exponential(scale)] returns [scale * e] where [e] is a
    standard exponential variate, and raises [ValueError] when
    [scale < 0]. *)
Definition numpy_random_exponential (scale e : Q) : PyExc + Q :=
  if Qlt_bool scale 0 then inl (ValueError "scale < 0")
  else inr (scale * e)%Q.

(** The distribution a numpy call draws from, with its parameters. *)
Inductive Dist : Type :=
| Uniform (low high : Q)
| Exponential (scale : Q).


(** The value numpy returns for the distribution, from the variate of
    the underlying generator. *)
Definition dist_draw (d : Dist) (variate : Q) : PyExc + Q :=
  match d with
  | Uniform low high => inr (numpy_random_uniform low high variate)
  | Exponential scale => numpy_random_exponential scale variate
  end.

(** Insertion of a value into an ascending list. *)
Fixpoint insert_sorted (x : Q) (l : list Q) : list Q :=
  match l with
  | [] => [x]
  | y :: l' => if Qle_bool x y then x :: l else y :: insert_sorted x l'
  end.

Definition sort (l : list Q) : list Q := fold_right insert_sorted [] l.

(** Linear interpolation in a sorted array at a virtual index: between
    the element at the floor of the index and the element at the next
    index (clipped to the last one), by the fractional part. *)
Definition lerp_at (s : list Q) (virtual_index : Q) : Q :=
  let n := Z.of_nat (List.length s) in
  let previous_index := Qfloor virtual_index in
  let next_index := Z.min (previous_index + 1) (n - 1) in
  let gamma := (virtual_index - inject_Z previous_index)%Q in
  let previous := nth (Z.to_nat previous_index) s 0%Q in
  let next := nth (Z.to_nat next_index) s 0%Q in
  (previous + (next - previous) * gamma)%Q.

(** [numpy.percentile(a, p)] with the default method, linear
    interpolation between closest ranks: the virtual index in the sorted
    array is [(n - 1) * p / 100]. *)
Definition np_percentile (a : list Q) (p : Z) : Q :=
  let s := sort a in
  let n := Z.of_nat (List.length s) in
  lerp_at s (inject_Z (n - 1) * (inject_Z p / 100))%Q.

(** ** The world seen by one request attempt *)

(** What the transport did with a request: the response was read to the
    end (whatever its status code), or [session.request] or
    [response.read] raised an [Exception]. *)
Inductive TransportOutcome : Type :=
| Responded (status : Z) (body : string)
| Raised (exc : string).

(** The oracle of one call of [_send_request]: the variate behind the
    numpy draw, the two readings of [time.monotonic()], and the
    transport's outcome. *)
Record Attempt : Type := {
  variate : Q;
  mono_start : Q;
  mono_end : Q;
  transport : TransportOutcome
}.

(** One turn of a worker: task [who] is at the head of its [while] loop,
    [time.time()] returns [now], and if the loop body runs, the attempt
    goes as [attempt] says.  The shared lists change only at the append
    that ends a pass, so a turn stands in the schedule at the place where
    its attempt completes; the readings [now] need not increase along the
    schedule. *)
Record Turn : Type := {
  who : nat;
  now : Q;
  attempt : Attempt
}.

(** The world of one Concurrency Run: the reading of [time.time()] at its
    start, and the worker turns in the order the event loop runs them. *)
Record RunWorld : Type := {
  wall_start : Q;
  schedule : list Turn
}.

Inductive Effect : Type :=
| OpenSession (headers : Headers)
| CreateTask
| Sleep (seconds : Q)
| Request (method url : string) (data : Data) (outcome : TransportOutcome)
| CloseSession.

Definition is_request (e : Effect) : bool :=
  match e with Request _ _ _ _ => true | _ => false end.

Definition is_create_task (e : Effect) : bool :=
  match e with CreateTask => true | _ => false end.

(** The requests sent, and the number of tasks created, in a trace. *)
Definition requests (tr : list Effect) : list Effect := filter is_request tr.

Definition tasks_created (tr : list Effect) : nat :=
  List.length (filter is_create_task tr).

(** ** class LoadGenerator *)

Module LoadGenerator.

Record t : Type := {
  url : string;
  concurrency : Z;
  duration : Z;
  request_type : string;
  headers : Headers;
  data : Data;
  mode : string;
  avg_jitter : Q
}.

Definition __init__ (url : string) (concurrency duration : Z)
    (request_type : string) (headers : Headers) (data : Data)
    (mode : string) (avg_jitter : Z) : t :=
  {| url := url;
     concurrency := concurrency;
     duration := duration;
     request_type := upper request_type;
     headers := headers;
     data := data;
     mode := mode;
     avg_jitter := (inject_Z avg_jitter / 1000)%Q |}.

(** Lines 101-104: the distribution the delay is drawn from, if any. *)
Definition pacer (self : t) : option Dist :=
  if String.eqb (mode self) "uniform" then
    Some (Uniform 0 (2 * avg_jitter self))
  else if String.eqb (mode self) "exponential" then
    Some (Exponential (avg_jitter self))
  else None.

(** The argument of [asyncio.sleep], when there is one. *)
Definition delay (self : t) (variate : Q) : PyExc + option Q :=
  match pacer self with
  | None => inr None
  | Some d =>
      match dist_draw d variate with
      | inl exc => inl exc
      | inr seconds => inr (Some seconds)
      end
  end.

(** The shared state of a run: the two lists the workers append to, and
    the trace of effects. *)
Record Shared : Type := {
  results : list Q;
  errors : list Z;
  trace : list Effect
}.

Definition log (e : Effect) (sh : Shared) : Shared :=
  {| results := results sh; errors := errors sh;
     trace := (trace sh ++ [e])%list |}.

(** [_send_request]: the latency in ms of the request if it went through,
    [-1.0] otherwise.  An exception of the numpy draw is raised outside
    the [try] and propagates. *)
Definition _send_request (self : t) (a : Attempt) (sh : Shared)
    : Shared * (PyExc + Q) :=
  match delay self (variate a) with
  | inl exc => (sh, inl exc)
  | inr slept =>
      let sh := match slept with
                | Some seconds => log (Sleep seconds) sh
                | None => sh
                end in
      let start_time := mono_start a in
      let sh :=
        log (Request (request_type self) (url self) (data self) (transport a))
            sh in
      match transport a with
      | Responded _ _ =>
          (sh, inr (b64 (b64 (mono_end a - start_time) * 1000)))
      | Raised _ => (sh, inr (- (1))%Q)
      end
  end.

(** One pass of the [while] loop of [_worker]: [None] when the loop
    condition fails and the worker returns. *)
Definition _worker (self : t) (end_time : Q) (tn : Turn) (sh : Shared)
    : PyExc + option Shared :=
  if Qlt_bool (now tn) end_time then
    match _send_request self (attempt tn) sh with
    | (sh, inl exc) => inl exc
    | (sh, inr latency) =>
        if Qle_bool 0 latency then
          inr (Some {| results := (results sh ++ [latency])%list;
                       errors := errors sh;
                       trace := trace sh |})
        else
          inr (Some {| results := results sh;
                       errors := (errors sh ++ [1])%list;
                       trace := trace sh |})
    end
  else inr None.

(** The tasks of a run: [true] while the task is not done. *)
Definition Tasks : Type := list bool.

Definition all_done (tasks : Tasks) : bool := forallb negb tasks.

Fixpoint finish (i : nat) (tasks : Tasks) : Tasks :=
  match tasks, i with
  | [], _ => []
  | _ :: tasks', O => false :: tasks'
  | b :: tasks', S i' => b :: finish i' tasks'
  end.

(** [await asyncio.gather] over the tasks: the event loop runs worker
    turns until every task is done.  A turn of a task that is done (or
    was never created) does not happen and is skipped.  The first
    exception of a task is raised to the caller.  [Pending] when the
    schedule ends while a task is still in its loop. *)
Fixpoint gather (self : t) (end_time : Q) (sched : list Turn)
    (tasks : Tasks) (sh : Shared) : Shared * Res unit :=
  if all_done tasks then (sh, Ok tt)
  else
    match sched with
    | [] => (sh, Pending)
    | tn :: sched' =>
        if nth (who tn) tasks false then
          match _worker self end_time tn sh with
          | inl exc => (sh, Raise exc)
          | inr None => gather self end_time sched' (finish (who tn) tasks) sh
          | inr (Some sh') => gather self end_time sched' tasks sh'
          end
        else gather self end_time sched' tasks sh
    end.

Definition percentiles : list Z := [50; 75; 95; 99].

Definition percentile_key (p : Z) : string :=
  "p" ++ str p ++ " Latency (ms)".

(** Lines 142-161: the metrics dict from the two lists. *)
Definition reduce (self : t) (results : list Q) (errors : list Z)
    : Res Dict :=
  let successful_requests := Z.of_nat (List.length results) in
  let error_count := Z.of_nat (List.length errors) in
  if successful_requests + error_count =? 0 then Raise ZeroDivisionError
  else
    let error_rate :=
      float_div error_count (successful_requests + error_count) in
    let latencies := results in
    let metrics :=
      [ ("Concurrency Level", PyInt (concurrency self));
        ("Duration (s)", PyInt (duration self));
        ("Successful Requests", PyInt successful_requests);
        ("Total Errors", PyInt error_count);
        ("Error Rate (%)", PyStr (format_2f error_rate)) ] in
    if (0 <? List.length latencies)%nat then
      Ok (fold_left
            (fun metrics p =>
               dict_set metrics (percentile_key p)
                 (PyStr (format_2f (np_percentile latencies p))))
            percentiles metrics)
    else Ok metrics.

Definition spawn (self : t) : Tasks :=
  repeat true (Z.to_nat (concurrency self)).

(** The state in which [gather] is entered. *)
Definition started (self : t) : Shared :=
  {| results := []; errors := [];
     trace := (OpenSession (headers self)
                 :: repeat CreateTask (Z.to_nat (concurrency self)))%list |}.

(** The shared state when [gather] returns or raises. *)
Definition gathered (self : t) (w : RunWorld) : Shared * Res unit :=
  let start_time := wall_start w in
  let end_time := (start_time + inject_Z (duration self))%Q in
  gather self end_time (schedule w) (spawn self) (started self).

(** [run]: the trace of the run and what it returns. *)
Definition run (self : t) (w : RunWorld) : list Effect * Res Dict :=
  match gathered self w with
  | (sh, Ok _) =>
      ((trace sh ++ [CloseSession])%list, reduce self (results sh) (errors sh))
  | (sh, Raise exc) => ((trace sh ++ [CloseSession])%list, Raise exc)
  | (sh, Pending) => (trace sh, Pending)
  end.

(** What one call of [_send_request] leaves in the trace. *)
Definition request_of (self : t) (a : Attempt) : Effect :=
  Request (request_type self) (url self) (data self) (transport a).

Definition sleep_of (self : t) (a : Attempt) : list Effect :=
  match delay self (variate a) with
  | inr (Some seconds) => [Sleep seconds]
  | _ => []
  end.

End LoadGenerator.

(** ** class HTTPBenchmark *)

Module HTTPBenchmark.

Record t : Type := {
  url : string;
  duration : Z;
  concurrency_levels : list Z;
  request_type : string;
  headers : Headers;
  data : Data;
  mode : string;
  avg_jitter : Z
}.

(** The logger is left out: it has no part in what is computed. *)
Definition __init__ (url : string) (duration : Z)
    (concurrency_levels : list Z) (request_type : string)
    (headers : Headers) (data : Data) (mode : string) (avg_jitter : Z) : t :=
  {| url := url;
     duration := duration;
     concurrency_levels := concurrency_levels;
     request_type := upper request_type;
     headers := headers;
     data := data;
     mode := mode;
     avg_jitter := avg_jitter |}.

Definition generator (self : t) (concurrency : Z) : LoadGenerator.t :=
  LoadGenerator.__init__ (url self) concurrency (duration self)
    (request_type self) (headers self) (data self) (mode self)
    (avg_jitter self).

(** The [for] loop of [run_tests]: one world per run, in the order of the
    runs; [results] is the list built so far. *)
Fixpoint run_tests_from (self : t) (levels : list Z)
    (worlds : list RunWorld) (results : list Dict)
    : list Effect * Res (list Dict) :=
  match levels with
  | [] => ([], Ok results)
  | concurrency :: levels' =>
      match worlds with
      | [] => ([], Pending)
      | w :: worlds' =>
          match LoadGenerator.run (generator self concurrency) w with
          | (tr, Ok metrics) =>
              let (tr', r) :=
                run_tests_from self levels' worlds'
                  (results ++ [metrics])%list in
              ((tr ++ tr')%list, r)
          | (tr, Raise exc) => (tr, Raise exc)
          | (tr, Pending) => (tr, Pending)
          end
      end
  end.

Definition run_tests (self : t) (worlds : list RunWorld)
    : list Effect * Res (list Dict) :=
  run_tests_from self (concurrency_levels self) worlds [].

(** [run]: the rows of the data frame, in order. *)
Definition run (self : t) (worlds : list RunWorld)
    : list Effect * Res (list Dict) :=
  run_tests self worlds.

End HTTPBenchmark.

(** ** fire_bench.py *)

Module FireBench.

(** The parsed command line.  [header] holds the headers after the split
    at the first colon, which is not modelled. *)
Record Args : Type := {
  url : string;
  duration : Z;
  concurrency_levels : list Z;
  request_type : string;
  mode : string;
  avg_jitter : Z;
  data : option string;
  data_binary : option string;
  header : list (string * string)
}.

(** The files: [isfile] is [os.path.isfile]; [open_error] is the
    exception that [open] or [read] raises on a path, if any (a file
    that cannot be read); [read] is the content otherwise. *)
Record FileSystem : Type := {
  isfile : string -> bool;
  open_error : string -> option PyExc;
  read : string -> string
}.

(** Truth value of an optional [str]: [None] and the empty string are
    false. *)
Definition truthy (o : option string) : bool :=
  match o with
  | Some (String _ _) => true
  | _ => false
  end.

Definition _parse_binary_from_file (fs : FileSystem) (file_path : string)
    : PyExc + string :=
  match open_error fs file_path with
  | Some exc => inl exc
  | None => inr (read fs file_path)
  end.

(** Lines 46-54 of [_main]. *)
Definition process_data (fs : FileSystem) (args : Args) : PyExc + Data :=
  let data0 := DataStr "" in
  if negb (String.eqb (upper (request_type args)) "GET") then
    if truthy (data args) then
      inr (DataStr (match data args with Some d => d | None => "" end))
    else if truthy (data_binary args) then
      let path := match data_binary args with Some p => p | None => "" end in
      if negb (isfile fs path) then
        inl (ArgumentTypeError
               ("The file '" ++ path ++ "' does not exist."))
      else
        match _parse_binary_from_file fs path with
        | inl exc => inl exc
        | inr binary_data => inr (DataBytes binary_data)
        end
    else inr data0
  else inr data0.

Definition benchmark (args : Args) (data : Data) : HTTPBenchmark.t :=
  HTTPBenchmark.__init__ (url args) (duration args)
    (concurrency_levels args) (request_type args) (Some (header args))
    data (mode args) (avg_jitter args).

Definition _main (fs : FileSystem) (args : Args) (worlds : list RunWorld)
    : list Effect * Res (list Dict) :=
  match process_data fs args with
  | inl exc => ([], Raise exc)
  | inr data => HTTPBenchmark.run (benchmark args data) worlds
  end.

End FireBench.

(** ** Small worlds used in the examples *)

Definition ok_attempt (ms : Z) : Attempt :=
  {| variate := 1 # 2; mono_start := 10;
     mono_end := (10 + inject_Z ms / 1000)%Q;
     transport := Responded 200 "ok" |}.

Definition failed_attempt : Attempt :=
  {| variate := 1 # 2; mono_start := 10; mono_end := 11;
     transport := Raised "ClientConnectorError" |}.

Definition turn (who : nat) (now : Q) (a : Attempt) : Turn :=
  {| who := who; now := now; attempt := a |}.

Definition bench_get : HTTPBenchmark.t :=
  HTTPBenchmark.__init__ "http://example.com" 3 [2; 1] "get" None
    (DataBytes "abc") "uniform" 10.

Definition world2 : RunWorld :=
  {| wall_start := 100;
     schedule := [ turn 0 100 (ok_attempt 7); turn 1 100 failed_attempt;
                   turn 1 101 (ok_attempt 12); turn 0 102 (ok_attempt 3);
                   turn 0 104 (ok_attempt 1); turn 1 103 failed_attempt ] |}.

Definition world1 : RunWorld :=
  {| wall_start := 200;
     schedule := [ turn 0 201 (ok_attempt 5); turn 0 203 failed_attempt ] |}.

Definition gen2 : LoadGenerator.t := HTTPBenchmark.generator bench_get 2.

(** A benchmark whose second level is not a valid concurrency level. *)
Definition bench_bad_level : HTTPBenchmark.t :=
  HTTPBenchmark.__init__ "http://example.com" 3 [2; 0] "GET" None DataNone
    "burst" 10.

(** A generator at concurrency level 0. *)
Definition gen_zero_level : LoadGenerator.t :=
  LoadGenerator.__init__ "http://example.com" 0 3 "GET" None DataNone
    "burst" 10.

(** A generator with a duration that is not positive. *)
Definition gen_bad_duration : LoadGenerator.t :=
  LoadGenerator.__init__ "http://example.com" 2 0 "GET" None DataNone
    "burst" 10.

Definition world_expired : RunWorld :=
  {| wall_start := 100;
     schedule := [ turn 1 100 (ok_attempt 7); turn 0 101 (ok_attempt 7) ] |}.

(** A world in which every request fails. *)
Definition world_unreachable : RunWorld :=
  {| wall_start := 100;
     schedule := [ turn 0 100 failed_attempt; turn 1 100 failed_attempt;
                   turn 0 102 failed_attempt; turn 1 103 failed_attempt;
                   turn 0 103 failed_attempt ] |}.

(** A generator with a negative average jitter. *)
Definition gen_negative_jitter : LoadGenerator.t :=
  LoadGenerator.__init__ "http://example.com" 1 3 "GET" None DataNone
    "exponential" (-5).

(** ** The runs of a benchmark, one after the other *)

(** [runs_in_order self levels worlds runs]: the i-th element of [runs] is
    the trace and the metrics of the run of the i-th level in the i-th
    world. *)
Inductive runs_in_order (self : HTTPBenchmark.t)
    : list Z -> list RunWorld -> list (list Effect * Dict) -> Prop :=
| runs_nil worlds : runs_in_order self [] worlds []
| runs_cons concurrency levels w worlds tr metrics runs :
    LoadGenerator.run (HTTPBenchmark.generator self concurrency) w
      = (tr, Ok metrics) ->
    runs_in_order self levels worlds runs ->
    runs_in_order self (concurrency :: levels) (w :: worlds)
      ((tr, metrics) :: runs).

(** The rows of the metrics dict that every run has. *)
Definition base_metrics (self : LoadGenerator.t) (results : list Q)
    (errors : list Z) : Dict :=
  let successful_requests := Z.of_nat (List.length results) in
  let error_count := Z.of_nat (List.length errors) in
  [ ("Concurrency Level", PyInt (LoadGenerator.concurrency self));
    ("Duration (s)", PyInt (LoadGenerator.duration self));
    ("Successful Requests", PyInt successful_requests);
    ("Total Errors", PyInt error_count);
    ("Error Rate (%)",
     PyStr (format_2f
              (float_div error_count (successful_requests + error_count)))) ].

(** The rows added when there is latency data. *)
Definition latency_metrics (results : list Q) : Dict :=
  map (fun p => (LoadGenerator.percentile_key p,
                 PyStr (format_2f (np_percentile results p))))
      LoadGenerator.percentiles.

(** ** The wording of the specification on configuration errors *)

(** A configuration the specification calls invalid: a duration or a
    concurrency level that is not positive. *)
Definition invalid_config (self : HTTPBenchmark.t) : Prop :=
  HTTPBenchmark.duration self <= 0 \/
  Exists (fun c => c <= 0) (HTTPBenchmark.concurrency_levels self).

(** A benchmark that is refused before any Concurrency Run starts: it
    raises, and nothing has been done (no session, no task, no request). *)
Definition rejected_before_any_run (out : list Effect * Res (list Dict))
    : Prop :=
  fst out = [] /\ exists exc, snd out = Raise exc.

(** ** The headers of fire_bench.py *)

(** [s.split(":", 1)] as the two-element unpacking of [_main] uses it:
    the text before the first colon and the text after it, or [None] when
    there is no colon (the unpacking then fails). *)
Fixpoint split_colon (s : string) : option (string * string) :=
  match s with
  | EmptyString => None
  | String c s' =>
      if Ascii.eqb c ":" then Some (EmptyString, s')
      else
        match split_colon s' with
        | Some (key, value) => Some (String c key, value)
        | None => None
        end
  end.

(** The ASCII characters [str.isspace] accepts: tab to carriage return,
    the four separators 28 to 31, and the space. *)
Definition is_space (c : ascii) : bool :=
  let n := nat_of_ascii c in
  (((9 <=? n) && (n <=? 13)) || ((28 <=? n) && (n <=? 32)))%nat.

Fixpoint lstrip (s : string) : string :=
  match s with
  | EmptyString => EmptyString
  | String c s' => if is_space c then lstrip s' else s
  end.

Fixpoint rstrip (s : string) : string :=
  match s with
  | EmptyString => EmptyString
  | String c s' =>
      match rstrip s' with
      | EmptyString => if is_space c then EmptyString else String c EmptyString
      | r => String c r
      end
  end.

(** [str.strip()] on ASCII text. *)
Definition strip (s : string) : string := rstrip (lstrip s).

(** A dict from [str] to [str], in insertion order. *)
Definition StrDict : Type := list (string * string).

Fixpoint strdict_get (d : StrDict) (k : string) : option string :=
  match d with
  | [] => None
  | (k', v) :: d' => if String.eqb k' k then Some v else strdict_get d' k
  end.

Fixpoint strdict_set (d : StrDict) (k v : string) : StrDict :=
  match d with
  | [] => [(k, v)]
  | (k', v') :: d' =>
      if String.eqb k' k then (k', v) :: d'
      else (k', v') :: strdict_set d' k v
  end.

(** Reading a header string: it has a colon; it is made of white space
    only; it has no white space at either end. *)
Definition has_colon (s : string) : Prop :=
  In ":"%char (list_ascii_of_string s).

Definition all_space (s : string) : bool :=
  forallb is_space (list_ascii_of_string s).

Definition no_outer_space (s : string) : bool :=
  match list_ascii_of_string s with
  | [] => true
  | c :: cs => negb (is_space c) && negb (is_space (last cs c))
  end.

(** A header string that does not set the name [k]. *)
Definition other_name (k : string) (h : string) : Prop :=
  forall key value, split_colon h = Some (key, value) -> strip key <> k.

Module FireBenchMain.

(** Lines 42-44 of [_main]: the loop over the header strings; [headers]
    is the dict built so far.  A header without a colon makes the
    unpacking of the split raise. *)
Fixpoint process_headers_from (hs : list string) (headers : StrDict)
    : PyExc + StrDict :=
  match hs with
  | [] => inr headers
  | header :: hs' =>
      match split_colon header with
      | None =>
          inl (ValueError "not enough values to unpack (expected 2, got 1)")
      | Some (key, value) =>
          process_headers_from hs' (strdict_set headers (strip key) (strip value))
      end
  end.

(** Lines 39-44 of [_main]; [header] is [None] when no [-H] was given. *)
Definition process_headers (header : option (list string))
    : PyExc + StrDict :=
  match header with
  | Some hs => process_headers_from hs []
  | None => inr []
  end.

Definition with_header (args : FireBench.Args) (headers : StrDict)
    : FireBench.Args :=
  {| FireBench.url := FireBench.url args;
     FireBench.duration := FireBench.duration args;
     FireBench.concurrency_levels := FireBench.concurrency_levels args;
     FireBench.request_type := FireBench.request_type args;
     FireBench.mode := FireBench.mode args;
     FireBench.avg_jitter := FireBench.avg_jitter args;
     FireBench.data := FireBench.data args;
     FireBench.data_binary := FireBench.data_binary args;
     FireBench.header := headers |}.

(** [_main] from the header strings of the command line: the headers are
    processed first, then the data, then the benchmark runs. *)
Definition _main (fs : FireBench.FileSystem) (header : option (list string))
    (args : FireBench.Args) (worlds : list RunWorld)
    : list Effect * Res (list Dict) :=
  match process_headers header with
  | inl exc => ([], Raise exc)
  | inr headers => FireBench._main fs (with_header args headers) worlds
  end.

End FireBenchMain.

(** A file system with no file, and a command line that posts a file. *)
Definition no_files : FireBench.FileSystem :=
  {| FireBench.isfile := fun _ => false;
     FireBench.open_error := fun _ => None;
     FireBench.read := fun _ => "" |}.

Definition args_post_file : FireBench.Args :=
  {| FireBench.url := "http://example.com"; FireBench.duration := 3;
     FireBench.concurrency_levels := [2]; FireBench.request_type := "POST";
     FireBench.mode := "uniform"; FireBench.avg_jitter := 10;
     FireBench.data := None; FireBench.data_binary := Some "body.bin";
     FireBench.header := [] |}.

(** A command line that gets, with a [--data] text. *)
Definition args_get_text : FireBench.Args :=
  {| FireBench.url := "http://example.com"; FireBench.duration := 3;
     FireBench.concurrency_levels := [2]; FireBench.request_type := "GET";
     FireBench.mode := "uniform"; FireBench.avg_jitter := 10;
     FireBench.data := Some "payload"; FireBench.data_binary := None;
     FireBench.header := [] |}.

(** ** Reading a trace *)

Definition is_sleep (e : Effect) : bool :=
  match e with Sleep _ => true | _ => false end.

Definition sleeps (tr : list Effect) : list Effect := filter is_sleep tr.

(** The effects of the worker loops: sleeps and requests. *)
Definition is_worker_effect (e : Effect) : bool :=
  match e with Sleep _ | Request _ _ _ _ => true | _ => false end.

Definition is_responded (e : Effect) : bool :=
  match e with Request _ _ _ (Responded _ _) => true | _ => false end.

Definition is_raised (e : Effect) : bool :=
  match e with Request _ _ _ (Raised _) => true | _ => false end.

(** Every sleep of a trace lasts between [lo] and [hi] seconds. *)
Definition sleeps_within (lo hi : Q) (tr : list Effect) : Prop :=
  Forall (fun e => match e with
                   | Sleep seconds => (lo <= seconds <= hi)%Q
                   | _ => True
                   end) tr.

(** A turn at which the loop of a worker of the run goes on: the task was
    created and the deadline is not reached. *)
Definition before_deadline (self : LoadGenerator.t) (w : RunWorld)
    (tn : Turn) : bool :=
  (who tn <? Z.to_nat (LoadGenerator.concurrency self))%nat
  && Qlt_bool (now tn)
       (wall_start w + inject_Z (LoadGenerator.duration self))%Q.

(** * Properties *)

(** ** Comparisons on rationals *)

Lemma Qlt_bool_true (x y : Q) : Qlt_bool x y = true <-> (x < y)%Q.
Proof.
  unfold Qlt_bool. rewrite negb_true_iff.
  split; intro H.
  - apply Qnot_le_lt. intro Hle. apply Qle_bool_iff in Hle. congruence.
  - destruct (Qle_bool y x) eqn:E; [|reflexivity].
    apply Qle_bool_iff in E. exfalso. exact (Qlt_not_le _ _ H E).
Qed.

Lemma Qlt_bool_false (x y : Q) : Qlt_bool x y = false <-> (y <= x)%Q.
Proof.
  unfold Qlt_bool. rewrite negb_false_iff. apply Qle_bool_iff.
Qed.

Lemma Qle_bool_false (x y : Q) : Qle_bool x y = false -> (y < x)%Q.
Proof.
  intro H. apply Qnot_le_lt. intro Hle. apply Qle_bool_iff in Hle. congruence.
Qed.

(** ** Rounding *)

Lemma round_half_even_comp (x y : Q) :
  (x == y)%Q -> round_half_even x = round_half_even y.
Proof.
  intro H. unfold round_half_even.
  rewrite (Qfloor_comp x y H).
  assert (Hc : ((x - inject_Z (Qfloor y) ?= 1 # 2)
                = (y - inject_Z (Qfloor y) ?= 1 # 2))%Q).
  { apply Qcompare_comp; [rewrite H; reflexivity | reflexivity]. }
  rewrite Hc. reflexivity.
Qed.

Lemma round_half_even_bounds (x : Q) :
  Qfloor x <= round_half_even x <= Qfloor x + 1.
Proof.
  unfold round_half_even.
  destruct (x - inject_Z (Qfloor x) ?= 1 # 2)%Q; [|lia|lia].
  destruct (Z.even (Qfloor x)); lia.
Qed.

Lemma round_half_even_Z (z : Z) : round_half_even (inject_Z z) = z.
Proof.
  unfold round_half_even. rewrite Qfloor_Z.
  assert (H : (inject_Z z - inject_Z z ?= 1 # 2)%Q = Lt).
  { apply Qlt_alt. unfold Qminus. rewrite Qplus_opp_r. reflexivity. }
  rewrite H. reflexivity.
Qed.

(** Rounding keeps the order. *)
Lemma round_half_even_mono (x y : Q) :
  (x <= y)%Q -> round_half_even x <= round_half_even y.
Proof.
  intro Hxy.
  pose proof (Qfloor_resp_le x y Hxy) as Hfl.
  destruct (Z.eq_dec (Qfloor x) (Qfloor y)) as [Heq | Hne].
  - unfold round_half_even. rewrite Heq.
    destruct (Qcompare_spec (x - inject_Z (Qfloor y)) (1 # 2)) as [Hx | Hx | Hx];
      destruct (Qcompare_spec (y - inject_Z (Qfloor y)) (1 # 2))
        as [Hy | Hy | Hy];
      try (destruct (Z.even (Qfloor y))); try lia; exfalso; lra.
  - pose proof (round_half_even_bounds x).
    pose proof (round_half_even_bounds y). lia.
Qed.

Lemma inject_Z_succ (z : Z) : (inject_Z (z + 1) == inject_Z z + 1)%Q.
Proof. rewrite inject_Z_plus. reflexivity. Qed.

(** Rounding to the nearest integer moves a number by one half at most. *)
Lemma round_half_even_error (x : Q) :
  (- (1 # 2) <= inject_Z (round_half_even x) - x <= 1 # 2)%Q.
Proof.
  unfold round_half_even.
  pose proof (Qfloor_le x) as Hl.
  pose proof (Qlt_floor x) as Hu. rewrite inject_Z_succ in Hu.
  destruct (Qcompare_spec (x - inject_Z (Qfloor x)) (1 # 2)) as [H | H | H].
  - destruct (Z.even (Qfloor x)); [|rewrite inject_Z_succ]; split; lra.
  - split; lra.
  - rewrite inject_Z_succ. split; lra.
Qed.

Lemma two_pow_pos (z : Z) : (0 < 2 ^ z)%Q.
Proof. apply Qpower_0_lt. reflexivity. Qed.

Lemma two_pow_Z (k : Z) : 0 <= k -> (inject_Z (2 ^ k) == 2 ^ k)%Q.
Proof. intro Hk. apply (Zpower_Qpower 2 k Hk). Qed.

Lemma two_pow_succ (z : Z) : (2 ^ (z + 1) == 2 ^ z * 2)%Q.
Proof. rewrite Qpower_plus by discriminate. reflexivity. Qed.

Lemma two_pow_inv (a b : Z) : (2 ^ (a - b) * 2 ^ (b - a) == 1)%Q.
Proof.
  rewrite <- Qpower_plus by discriminate.
  replace (a - b + (b - a)) with 0 by lia. reflexivity.
Qed.

(** The exponent brackets the number between two powers of 2. *)
Lemma ilog2_spec (x : Q) :
  (0 < x)%Q -> (2 ^ ilog2 x <= x)%Q /\ (x < 2 ^ (ilog2 x + 1))%Q.
Proof.
  intro Hx. unfold ilog2.
  destruct (Qle_bool 1 x) eqn:H1.
  - apply Qle_bool_iff in H1.
    assert (Hn : 0 < Qfloor x).
    { assert (H : 1 <= Qfloor x)
        by (change 1 with (Qfloor 1); apply Qfloor_resp_le; exact H1).
      lia. }
    destruct (Z.log2_spec _ Hn) as [Hlo Hhi].
    pose proof (Z.log2_nonneg (Qfloor x)) as Hk.
    pose proof (Qfloor_le x) as Hfl.
    pose proof (Qlt_floor x) as Hfu.
    split.
    + rewrite <- two_pow_Z by exact Hk.
      eapply Qle_trans; [|exact Hfl]. rewrite <- Zle_Qle. exact Hlo.
    + rewrite <- two_pow_Z by lia.
      eapply Qlt_le_trans; [exact Hfu|]. rewrite <- Zle_Qle.
      unfold Z.succ in Hhi. lia.
  - apply Qle_bool_false in H1.
    set (y := (/ x)%Q).
    assert (Hy : (0 < y)%Q) by (apply Qinv_lt_0_compat; exact Hx).
    assert (Hxy : (x * y == 1)%Q).
    { unfold y. apply Qmult_inv_r. intro H. rewrite H in Hx.
      exact (Qlt_irrefl _ Hx). }
    assert (Hy1 : (1 < y)%Q).
    { destruct (Qlt_le_dec 1 y) as [H | H]; [exact H|]. exfalso.
      assert (Hm : (x * y <= x * 1)%Q) by (apply Qmult_le_l; assumption).
      rewrite Hxy, Qmult_1_r in Hm.
      exact (Qlt_not_le _ _ H1 Hm). }
    pose proof (Qle_ceiling y) as Hc.
    pose proof (Qceiling_lt y) as Hc'.
    assert (Hc2 : 1 < Qceiling y).
    { assert (H : (inject_Z 1 < inject_Z (Qceiling y))%Q)
        by (eapply Qlt_le_trans; [exact Hy1 | exact Hc]).
      rewrite <- Zlt_Qlt in H. exact H. }
    destruct (Z.log2_up_spec _ Hc2) as [Hlo Hhi].
    pose proof (Z.log2_up_pos _ Hc2) as Hk.
    set (k := Z.log2_up (Qceiling y)) in *.
    split.
    + rewrite Qpower_opp. apply Qle_shift_inv_r; [apply two_pow_pos|].
      assert (H : (y <= 2 ^ k)%Q).
      { eapply Qle_trans; [exact Hc|].
        rewrite <- two_pow_Z by lia. rewrite <- Zle_Qle. exact Hhi. }
      nra.
    + replace (- k + 1) with (- (k - 1)) by lia.
      rewrite Qpower_opp. apply Qlt_shift_inv_l; [apply two_pow_pos|].
      assert (H : (2 ^ (k - 1) < y)%Q).
      { eapply Qle_lt_trans; [|exact Hc'].
        rewrite <- two_pow_Z by lia. rewrite <- Zle_Qle.
        change (k - 1) with (Z.pred k). lia. }
      nra.
Qed.

Lemma ilog2_comp (x y : Q) : (x == y)%Q -> ilog2 x = ilog2 y.
Proof.
  intro H. unfold ilog2.
  assert (Hb : Qle_bool 1 x = Qle_bool 1 y)
    by (apply Qleb_comp; [reflexivity | exact H]).
  rewrite Hb, (Qfloor_comp x y H).
  assert (Hi : (/ x == / y)%Q) by (rewrite H; reflexivity).
  rewrite (Qceiling_comp _ _ Hi). reflexivity.
Qed.

Lemma b64_comp (x y : Q) : (x == y)%Q -> b64 x = b64 y.
Proof.
  intro H. unfold b64.
  assert (H0 : Qeq_bool x 0 = Qeq_bool y 0)
    by (apply Qeqb_comp; [exact H | reflexivity]).
  assert (Hlt : Qlt_bool x 0 = Qlt_bool y 0).
  { unfold Qlt_bool. f_equal. apply Qleb_comp; [reflexivity | exact H]. }
  assert (Habs : (Qabs x == Qabs y)%Q) by (apply Qabs_wd; exact H).
  rewrite H0, Hlt, (ilog2_comp _ _ Habs).
  assert (Hm : (Qabs x * 2 ^ (52 - ilog2 (Qabs y))
                == Qabs y * 2 ^ (52 - ilog2 (Qabs y)))%Q)
    by (rewrite Habs; reflexivity).
  rewrite (round_half_even_comp _ _ Hm). reflexivity.
Qed.

(** The shape of the rounding of a positive number. *)
Lemma b64_pos (x : Q) :
  (0 < x)%Q ->
  b64 x = (inject_Z (round_half_even (x * 2 ^ (52 - ilog2 x)))
           * 2 ^ (ilog2 x - 52))%Q.
Proof.
  intro Hx. unfold b64.
  assert (H0 : Qeq_bool x 0 = false).
  { destruct (Qeq_bool x 0) eqn:E; [|reflexivity].
    apply Qeq_bool_eq in E. rewrite E in Hx. exfalso.
    exact (Qlt_irrefl _ Hx). }
  assert (Hlt : Qlt_bool x 0 = false)
    by (apply Qlt_bool_false; apply Qlt_le_weak; exact Hx).
  assert (Habs : (Qabs x == x)%Q)
    by (apply Qabs_pos; apply Qlt_le_weak; exact Hx).
  rewrite H0, Hlt, (ilog2_comp _ _ Habs).
  assert (Hm : (Qabs x * 2 ^ (52 - ilog2 x) == x * 2 ^ (52 - ilog2 x))%Q)
    by (rewrite Habs; reflexivity).
  rewrite (round_half_even_comp _ _ Hm). reflexivity.
Qed.

Lemma b64_zero (x : Q) : (x == 0)%Q -> b64 x = 0%Q.
Proof. intro H. rewrite (b64_comp _ _ H). reflexivity. Qed.

Lemma b64_nonneg (x : Q) : (0 <= x)%Q -> (0 <= b64 x)%Q.
Proof.
  intro Hx. destruct (Qeq_dec x 0) as [Hz | Hnz].
  - rewrite (b64_zero _ Hz). apply Qle_refl.
  - assert (Hpos : (0 < x)%Q).
    { destruct (Qlt_le_dec 0 x) as [H | H]; [exact H|].
      exfalso. apply Hnz. apply Qle_antisym; assumption. }
    rewrite (b64_pos _ Hpos).
    pose proof (two_pow_pos (52 - ilog2 x)) as Hs.
    pose proof (two_pow_pos (ilog2 x - 52)) as Hs'.
    assert (Hm : (0 <= x * 2 ^ (52 - ilog2 x))%Q) by nra.
    assert (Hr : 0 <= round_half_even (x * 2 ^ (52 - ilog2 x))).
    { pose proof (round_half_even_bounds (x * 2 ^ (52 - ilog2 x))).
      assert (0 <= Qfloor (x * 2 ^ (52 - ilog2 x)))
        by (change 0 with (Qfloor 0); apply Qfloor_resp_le; exact Hm).
      lia. }
    assert (Hr' : (0 <= inject_Z (round_half_even (x * 2 ^ (52 - ilog2 x))))%Q)
      by (change 0%Q with (inject_Z 0); rewrite <- Zle_Qle; exact Hr).
    apply Qmult_le_0_compat; [exact Hr' | apply Qlt_le_weak; exact Hs'].
Qed.

Lemma b64_le_1 (x : Q) : (0 <= x)%Q -> (x <= 1)%Q -> (b64 x <= 1)%Q.
Proof.
  intros Hx Hx1. destruct (Qeq_dec x 0) as [Hz | Hnz].
  - rewrite (b64_zero _ Hz). discriminate.
  - assert (Hpos : (0 < x)%Q).
    { destruct (Qlt_le_dec 0 x) as [H | H]; [exact H|].
      exfalso. apply Hnz. apply Qle_antisym; assumption. }
    rewrite (b64_pos _ Hpos).
    destruct (ilog2_spec x Hpos) as [Hlo _].
    assert (He : ilog2 x <= 0).
    { apply (Qpower_le_compat_l_inv 2); [|reflexivity].
      eapply Qle_trans; [exact Hlo | exact Hx1]. }
    set (e := ilog2 x) in *.
    pose proof (two_pow_pos (52 - e)) as Hs.
    pose proof (two_pow_pos (e - 52)) as Hs'.
    pose proof (two_pow_inv 52 e) as Hinv.
    assert (Hr : round_half_even (x * 2 ^ (52 - e)) <= 2 ^ (52 - e)).
    { apply Z.le_trans with (round_half_even (inject_Z (2 ^ (52 - e))));
        [|rewrite round_half_even_Z; lia].
      apply round_half_even_mono.
      rewrite two_pow_Z by lia.
      rewrite <- (Qmult_1_l (2 ^ (52 - e))) at 2.
      apply Qmult_le_compat_r; [exact Hx1 | apply Qlt_le_weak; exact Hs]. }
    assert (Hr' : (inject_Z (round_half_even (x * 2 ^ (52 - e)))
                   <= 2 ^ (52 - e))%Q).
    { apply Qle_trans with (inject_Z (2 ^ (52 - e))).
      - rewrite <- Zle_Qle. exact Hr.
      - rewrite (two_pow_Z (52 - e)) by lia. apply Qle_refl. }
    set (R := inject_Z (round_half_even (x * 2 ^ (52 - e)))) in *.
    set (s := (2 ^ (52 - e))%Q) in *.
    set (t := (2 ^ (e - 52))%Q) in *.
    assert (H : (R * t <= s * t)%Q)
      by (apply Qmult_le_compat_r; [exact Hr' | apply Qlt_le_weak; exact Hs']).
    lra.
Qed.

(** The double nearest to a positive number is within one part in 2^53
    of it. *)
Lemma b64_error (x : Q) :
  (0 < x)%Q ->
  (- (x * 2 ^ (-53)) <= b64 x - x <= x * 2 ^ (-53))%Q.
Proof.
  intro Hpos. rewrite (b64_pos _ Hpos).
  destruct (ilog2_spec x Hpos) as [Hlo _].
  set (e := ilog2 x) in *.
  pose proof (two_pow_pos (52 - e)) as Hs.
  pose proof (two_pow_pos (e - 52)) as Hs'.
  pose proof (two_pow_pos e) as He.
  pose proof (two_pow_inv 52 e) as Hinv.
  pose proof (round_half_even_error (x * 2 ^ (52 - e))) as [Hel Heu].
  assert (Hhalf : (2 ^ (e - 52) * (1 # 2) == 2 ^ e * 2 ^ (-53))%Q).
  { replace (e - 52) with (e + -52) by lia.
    rewrite Qpower_plus by discriminate.
    assert (H : (2 ^ (-52) * (1 # 2) == 2 ^ (-53))%Q) by reflexivity.
    rewrite <- H. ring. }
  pose proof (two_pow_pos (-53)) as H53.
  set (R := inject_Z (round_half_even (x * 2 ^ (52 - e)))) in *.
  set (s := (2 ^ (52 - e))%Q) in *.
  set (t := (2 ^ (e - 52))%Q) in *.
  set (u := (2 ^ (-53))%Q) in *.
  set (pe := (2 ^ e)%Q) in *.
  assert (Hd : (R * t - x == (R - x * s) * t)%Q).
  { assert (H : (x == x * (s * t))%Q) by (rewrite Hinv; ring).
    rewrite H at 1. ring. }
  rewrite Hd.
  assert (Hb1 : ((R - x * s) * t <= (1 # 2) * t)%Q) by nra.
  assert (Hb2 : (- ((1 # 2) * t) <= (R - x * s) * t)%Q) by nra.
  assert (Hb3 : ((1 # 2) * t <= x * u)%Q).
  { assert (H : ((1 # 2) * t == pe * u)%Q) by (rewrite <- Hhalf; ring).
    rewrite H. nra. }
  split; lra.
Qed.

Lemma b64_error_nonneg (x : Q) :
  (0 <= x)%Q ->
  (- (x * 2 ^ (-53)) <= b64 x - x <= x * 2 ^ (-53))%Q.
Proof.
  intro Hx. destruct (Qeq_dec x 0) as [Hz | Hnz].
  - rewrite (b64_zero _ Hz), Hz. split; discriminate.
  - apply b64_error.
    destruct (Qlt_le_dec 0 x) as [H | H]; [exact H|].
    exfalso. apply Hnz. apply Qle_antisym; assumption.
Qed.

(** ** The event loop *)

Import LoadGenerator.

Lemma gather_all_done self end_time sched tasks sh :
  all_done tasks = true ->
  gather self end_time sched tasks sh = (sh, Ok tt).
Proof.
  intro H. destruct sched; simpl; rewrite H; reflexivity.
Qed.

Lemma gather_step self end_time tn sched tasks sh :
  all_done tasks = false ->
  gather self end_time (tn :: sched) tasks sh =
  if nth (who tn) tasks false then
    match _worker self end_time tn sh with
    | inl exc => (sh, Raise exc)
    | inr None => gather self end_time sched (finish (who tn) tasks) sh
    | inr (Some sh') => gather self end_time sched tasks sh'
    end
  else gather self end_time sched tasks sh.
Proof.
  intro H. simpl. rewrite H. reflexivity.
Qed.

Lemma send_request_shape self a sh sh' r :
  _send_request self a sh = (sh', r) ->
  (exists exc, r = inl exc /\ sh' = sh /\ delay self (variate a) = inl exc) \/
  (exists latency, r = inr latency /\
     results sh' = results sh /\ errors sh' = errors sh /\
     trace sh' = (trace sh ++ sleep_of self a ++ [request_of self a])%list /\
     latency = match transport a with
               | Responded _ _ =>
                   b64 (b64 (mono_end a - mono_start a) * 1000)
               | Raised _ => (- (1))%Q
               end).
Proof.
  unfold _send_request, sleep_of, request_of.
  destruct (delay self (variate a)) as [exc | [seconds |]]; intro H.
  - left. exists exc. inversion H; subst. auto.
  - right.
    destruct (transport a); inversion H; subst; clear H;
      eexists; (split; [reflexivity|]); cbn [results errors trace log];
      rewrite <- app_assoc; cbn [app]; auto.
  - right.
    destruct (transport a); inversion H; subst; clear H;
      eexists; (split; [reflexivity|]); cbn [results errors trace log app];
      auto.
Qed.

(** The latency of a response that was read, on a monotonic clock that
    did not run backwards, is not negative. *)
Lemma latency_nonneg (m0 m1 : Q) :
  (m0 <= m1)%Q -> (0 <= b64 (b64 (m1 - m0) * 1000))%Q.
Proof.
  intro H. apply b64_nonneg.
  assert (H0 : (0 <= b64 (m1 - m0))%Q) by (apply b64_nonneg; lra).
  lra.
Qed.

(** A pass of the worker loop that runs the body appends one sample to one
    of the two lists and sends one request. *)
Lemma worker_pass self end_time tn sh sh' :
  _worker self end_time tn sh = inr (Some sh') ->
  (now tn < end_time)%Q /\
  trace sh' =
    (trace sh ++ sleep_of self (attempt tn)
       ++ [request_of self (attempt tn)])%list /\
  ((exists latency, (0 <= latency)%Q /\
      results sh' = (results sh ++ [latency])%list /\
      errors sh' = errors sh) \/
   (results sh' = results sh /\ errors sh' = (errors sh ++ [1])%list)).
Proof.
  unfold _worker.
  destruct (Qlt_bool (now tn) end_time) eqn:Hnow; [|discriminate].
  apply Qlt_bool_true in Hnow.
  destruct (_send_request self (attempt tn) sh) as [sh1 r] eqn:Hsend.
  apply send_request_shape in Hsend.
  destruct Hsend as [(exc & -> & _) | (latency & -> & Hr & He & Ht & _)];
    [discriminate|].
  destruct (Qle_bool 0 latency) eqn:Hlat; intro H; inversion H; subst; clear H;
    simpl; (split; [exact Hnow|]); (split; [exact Ht|]).
  - left. exists latency. apply Qle_bool_iff in Hlat. rewrite Hr, He. auto.
  - right. rewrite Hr, He. auto.
Qed.

(** A pass of the worker loop that finds the deadline not reached, and
    whose numpy draw does not raise, runs the body to its end. *)
Lemma worker_pass_runs self end_time tn sh slept :
  (now tn < end_time)%Q ->
  delay self (variate (attempt tn)) = inr slept ->
  exists sh', _worker self end_time tn sh = inr (Some sh').
Proof.
  intros Hnow Hdelay. unfold _worker, _send_request.
  apply Qlt_bool_true in Hnow. rewrite Hnow, Hdelay.
  destruct (transport (attempt tn));
    match goal with
    | |- context [Qle_bool 0 ?l] => destruct (Qle_bool 0 l)
    end; eexists; reflexivity.
Qed.

Lemma requests_app tr tr' :
  requests (tr ++ tr') = (requests tr ++ requests tr')%list.
Proof. apply filter_app. Qed.

Lemma requests_sleep_of self a : requests (sleep_of self a) = [].
Proof.
  unfold sleep_of.
  destruct (delay self (variate a)) as [? | [? |]]; reflexivity.
Qed.

(** Induction principle for [gather]: a property of the shared state that
    holds at the start and is kept by every pass of a worker loop holds
    when [gather] stops, whatever the way it stops. *)
Lemma gather_invariant (P : Shared -> Prop) self end_time :
  (forall tn sh sh',
      P sh -> _worker self end_time tn sh = inr (Some sh') -> P sh') ->
  forall sched tasks sh sh' r,
    P sh -> gather self end_time sched tasks sh = (sh', r) -> P sh'.
Proof.
  intros Hstep sched.
  induction sched as [|tn sched IH]; intros tasks sh sh' r HP Hg.
  - simpl in Hg. destruct (all_done tasks); inversion Hg; subst; exact HP.
  - destruct (all_done tasks) eqn:Hdone.
    + rewrite gather_all_done in Hg by exact Hdone.
      inversion Hg; subst; exact HP.
    + rewrite gather_step in Hg by exact Hdone.
      destruct (nth (who tn) tasks false).
      * destruct (_worker self end_time tn sh) as [exc | [sh1 |]] eqn:Hw.
        -- inversion Hg; subst; exact HP.
        -- eapply IH; [|exact Hg]. eapply Hstep; eauto.
        -- eapply IH; eauto.
      * eapply IH; eauto.
Qed.

Lemma length_snoc_neq {A} (l : list A) (x : A) : (l ++ [x])%list <> l.
Proof.
  intro H. apply (f_equal (@List.length A)) in H.
  rewrite length_app in H. simpl in H. lia.
Qed.

(** ** Zero attempts *)

(** A run at concurrency level 0 creates no worker, observes zero attempts
    and raises. *)
Lemma run_zero_workers
    (url : string) (duration : Z) (request_type : string) (h : Headers)
    (d : Data) (mode : string) (jitter : Z) (w : RunWorld) :
  LoadGenerator.run
    (LoadGenerator.__init__ url 0 duration request_type h d mode jitter) w
  = ([OpenSession h; CloseSession], Raise ZeroDivisionError).
Proof.
  unfold LoadGenerator.run, gathered, spawn, started. simpl.
  rewrite gather_all_done by reflexivity.
  reflexivity.
Qed.

(** C1 (the code departs from the claim): in every Concurrency Run that
    observes zero attempts, that is, whose workers have all stopped with
    no latency and no error marker collected, [run] divides by zero and
    raises [ZeroDivisionError]; it does not report an error rate of 0 or
    "n/a". *)
Theorem C1_zero_attempts_division_error (self : LoadGenerator.t)
    (w : RunWorld) (sh : Shared) :
  gathered self w = (sh, Ok tt) ->
  (List.length (results sh) + List.length (errors sh) = 0)%nat ->
  LoadGenerator.run self w
  = ((trace sh ++ [CloseSession])%list, Raise ZeroDivisionError).
Proof.
  intros Hg Hzero. unfold LoadGenerator.run. rewrite Hg.
  unfold reduce.
  replace (Z.of_nat (List.length (results sh))
           + Z.of_nat (List.length (errors sh))) with 0 by lia.
  reflexivity.
Qed.

Lemma C1_witness :
  LoadGenerator.run gen_zero_level world1
  = ([OpenSession None; CloseSession], Raise ZeroDivisionError).
Proof.
  apply (C1_zero_attempts_division_error gen_zero_level world1
           (fst (gathered gen_zero_level world1))).
  - vm_compute; reflexivity.
  - vm_compute; reflexivity.
Defined.

(** ** The request body *)

(** C3 (the code departs from the claim): for the method GET,
    [_send_request] passes the configured data to the transport like for
    any other method; the request of a GET run carries whatever body the
    generator was built with. *)
Theorem C3_get_request_carries_data
    (url : string) (c duration : Z) (h : Headers) (d : Data) (jitter : Z)
    (a : Attempt) (sh : Shared) :
  fst (_send_request
         (LoadGenerator.__init__ url c duration "get" h d "burst" jitter) a sh)
  = log (Request "GET" url d (transport a)) sh.
Proof.
  unfold _send_request, delay, pacer. simpl.
  destruct (transport a); reflexivity.
Qed.

(** On the command line path the data of a GET run is the empty string. *)
Lemma process_data_get fs args :
  upper (FireBench.request_type args) = "GET" ->
  FireBench.process_data fs args = inr (DataStr "").
Proof.
  intro H. unfold FireBench.process_data. rewrite H. reflexivity.
Qed.

(** Every request of a run carries the method, the url and the data of the
    generator, unchanged. *)
Lemma run_requests_verbatim self w sh r :
  gathered self w = (sh, r) ->
  Forall (fun e => exists outcome,
            e = Request (request_type self) (url self) (data self) outcome)
         (requests (trace sh)).
Proof.
  unfold gathered. intro Hg.
  eapply (gather_invariant
            (fun sh => Forall (fun e => exists outcome,
                e = Request (request_type self) (url self) (data self) outcome)
                (requests (trace sh)))); [| |exact Hg].
  - intros tn sh0 sh1 HP Hw. apply worker_pass in Hw.
    destruct Hw as (_ & Ht & _). rewrite Ht.
    rewrite !requests_app, requests_sleep_of. simpl.
    apply Forall_app. split; [exact HP|].
    constructor; [|constructor]. eexists. reflexivity.
  - unfold started. simpl. unfold requests.
    induction (Z.to_nat (concurrency self)); simpl; auto.
Qed.

(** ** Samples and attempts *)

Lemma started_requests self : requests (trace (started self)) = [].
Proof.
  unfold started, requests. simpl.
  induction (Z.to_nat (concurrency self)); simpl; auto.
Qed.

Lemma gathered_counts self w sh r :
  gathered self w = (sh, r) ->
  (List.length (results sh) + List.length (errors sh)
   = List.length (requests (trace sh)))%nat.
Proof.
  unfold gathered. intro Hg.
  eapply (gather_invariant
            (fun sh => (List.length (results sh) + List.length (errors sh)
                        = List.length (requests (trace sh)))%nat));
    [| |exact Hg].
  - intros tn sh0 sh1 HP Hw. apply worker_pass in Hw.
    destruct Hw as (_ & Ht & [(latency & _ & Hr & He) | (Hr & He)]);
      rewrite Ht, Hr, He, !requests_app, requests_sleep_of;
      rewrite !length_app; simpl; lia.
  - rewrite started_requests. reflexivity.
Qed.

(** ** Classification of an attempt *)

(** C7: a pass of the worker loop that finds the deadline not reached
    (the numpy draw not raising, the monotonic clock not running
    backwards) always records its attempt: as an error marker, and no
    latency, exactly when the transport raised; as a latency, and no
    error marker, when the response was read, whatever its status
    code. *)
Theorem C7_error_iff_transport_raises (self : LoadGenerator.t)
    (end_time : Q) (tn : Turn) (sh : Shared) (slept : option Q) :
  (now tn < end_time)%Q ->
  delay self (variate (attempt tn)) = inr slept ->
  (mono_start (attempt tn) <= mono_end (attempt tn))%Q ->
  exists sh',
    _worker self end_time tn sh = inr (Some sh') /\
    ((results sh' = results sh /\ errors sh' = (errors sh ++ [1])%list)
     <-> exists exc, transport (attempt tn) = Raised exc) /\
    (forall exc,
        transport (attempt tn) = Raised exc ->
        results sh' = results sh /\ errors sh' = (errors sh ++ [1])%list) /\
    (forall status body,
        transport (attempt tn) = Responded status body ->
        results sh' =
          (results sh
             ++ [b64 (b64 (mono_end (attempt tn) - mono_start (attempt tn))
                      * 1000)])%list
        /\ errors sh' = errors sh).
Proof.
  intros Hnow Hdelay Hmono.
  destruct (worker_pass_runs self end_time tn sh slept Hnow Hdelay)
    as [sh' Hw].
  exists sh'. split; [exact Hw|].
  revert Hw. unfold _worker.
  destruct (Qlt_bool (now tn) end_time); [|discriminate].
  destruct (_send_request self (attempt tn) sh) as [sh1 r] eqn:Hsend.
  apply send_request_shape in Hsend.
  destruct Hsend as [(exc & -> & _) | (latency & -> & Hr & He & _ & Hlat)];
    [discriminate|].
  destruct (transport (attempt tn)) as [status body | exc] eqn:Htr.
  - assert (Hpos : Qle_bool 0 latency = true).
    { apply Qle_bool_iff. subst latency. apply latency_nonneg. exact Hmono. }
    rewrite Hpos. subst latency.
    intro H. inversion H; subst sh'; clear H. cbn [results errors].
    rewrite Hr, He. split; [split|split].
    + intros [Habs _]. exfalso. exact (length_snoc_neq _ _ Habs).
    + intros [exc Hexc]. discriminate.
    + intros exc Hexc. discriminate.
    + intros status' body' _. split; reflexivity.
  - subst latency. change (Qle_bool 0 (- (1))) with false.
    intro H. inversion H; subst sh'; clear H. cbn [results errors].
    rewrite Hr, He. split; [split|split].
    + intros _. eexists. reflexivity.
    + intros _. auto.
    + intros exc' _. auto.
    + intros status body Hresp. discriminate.
Qed.

Lemma C7_witness :
  exists sh',
    _worker gen2 103 (turn 0 100 failed_attempt) (started gen2)
      = inr (Some sh') /\
    results sh' = [] /\ errors sh' = [1].
Proof.
  destruct (C7_error_iff_transport_raises gen2 103
              (turn 0 100 failed_attempt) (started gen2)
              (Some (numpy_random_uniform 0 (2 * avg_jitter gen2) (1 # 2))))
    as (sh' & Hw & _ & Hraised & _).
  - vm_compute; reflexivity.
  - reflexivity.
  - vm_compute; discriminate.
  - exists sh'. split; [exact Hw|].
    exact (Hraised "ClientConnectorError" eq_refl).
Defined.

(** ** Configurations the specification calls invalid *)

Lemma filter_repeat_create_task n :
  filter is_create_task (repeat CreateTask n) = repeat CreateTask n.
Proof. induction n; simpl; congruence. Qed.

Lemma filter_request_repeat_create_task n :
  filter is_request (repeat CreateTask n) = [].
Proof. induction n; simpl; congruence. Qed.

(** When every turn finds the deadline reached, the workers return
    without touching the shared state. *)
Lemma gather_expired self end_time sched :
  Forall (fun tn => (end_time <= now tn)%Q) sched ->
  forall tasks sh, fst (gather self end_time sched tasks sh) = sh.
Proof.
  induction 1 as [|tn sched Hnow _ IH]; intros tasks sh.
  - simpl. destruct (all_done tasks); reflexivity.
  - destruct (all_done tasks) eqn:Hdone.
    + rewrite gather_all_done by exact Hdone. reflexivity.
    + rewrite gather_step by exact Hdone.
      destruct (nth (who tn) tasks false); [|apply IH].
      unfold _worker.
      apply Qlt_bool_false in Hnow. rewrite Hnow. apply IH.
Qed.

Lemma gathered_idle self w :
  concurrency self <= 0 \/
  (duration self <= 0 /\
   Forall (fun tn => (wall_start w <= now tn)%Q) (schedule w)) ->
  fst (gathered self w) = started self.
Proof.
  unfold gathered. intros [Hc | [Hd Hclock]].
  - unfold spawn.
    replace (Z.to_nat (concurrency self)) with 0%nat by lia.
    rewrite gather_all_done by reflexivity. reflexivity.
  - apply gather_expired.
    eapply Forall_impl; [|exact Hclock].
    intros tn Hnow. simpl in Hnow.
    assert (Hinj : (inject_Z (duration self) <= 0)%Q).
    { unfold Qle. simpl. lia. }
    lra.
Qed.

Lemma invalid_config_is_run (self : LoadGenerator.t) (w : RunWorld) :
  concurrency self <= 0 \/
  (duration self <= 0 /\
   Forall (fun tn => (wall_start w <= now tn)%Q) (schedule w)) ->
  let tr := fst (LoadGenerator.run self w) in
  hd_error tr = Some (OpenSession (headers self)) /\
  tasks_created tr = Z.to_nat (concurrency self) /\
  requests tr = [].
Proof.
  intro H. apply gathered_idle in H. cbv zeta.
  unfold LoadGenerator.run.
  destruct (gathered self w) as [sh r]. simpl in H. subst sh.
  assert (Hshape :
    forall tail, (tail = [] \/ tail = [CloseSession]) ->
      hd_error (trace (started self) ++ tail)%list
        = Some (OpenSession (headers self)) /\
      tasks_created (trace (started self) ++ tail)%list
        = Z.to_nat (concurrency self) /\
      requests (trace (started self) ++ tail)%list = []).
  { intros tail Htail. unfold started, tasks_created, requests. simpl.
    rewrite !filter_app, filter_repeat_create_task,
      filter_request_repeat_create_task, length_app, repeat_length.
    destruct Htail as [-> | ->]; simpl; repeat split; lia. }
  destruct r as [[] | exc |]; cbn [fst].
  - apply Hshape; auto.
  - apply Hshape; auto.
  - rewrite <- (app_nil_r (trace (started self))). apply Hshape; auto.
Qed.

(** C2 (the claim fails; this is what the code does): a duration or a
    concurrency level that is not positive is not checked anywhere.  The
    two constructors store both as they are given, and the Concurrency
    Run is entered all the same: it opens its session and creates as many
    workers as the level asks for (none when the level is not positive);
    at a level that is not positive, or at a duration that is not
    positive on a wall clock that does not run backwards, it sends no
    request. *)
Theorem C2_invalid_config_is_run
    (url : string) (duration : Z) (levels : list Z) (request_type : string)
    (h : Headers) (d : Data) (mode : string) (jitter : Z)
    (concurrency : Z) (w : RunWorld) :
  concurrency <= 0 \/
  (duration <= 0 /\
   Forall (fun tn => (wall_start w <= now tn)%Q) (schedule w)) ->
  let benchmark :=
    HTTPBenchmark.__init__ url duration levels request_type h d mode jitter in
  let self := HTTPBenchmark.generator benchmark concurrency in
  let tr := fst (LoadGenerator.run self w) in
  HTTPBenchmark.duration benchmark = duration /\
  HTTPBenchmark.concurrency_levels benchmark = levels /\
  LoadGenerator.duration self = duration /\
  LoadGenerator.concurrency self = concurrency /\
  hd_error tr = Some (OpenSession h) /\
  tasks_created tr = Z.to_nat concurrency /\
  requests tr = [].
Proof.
  intro H. cbv zeta.
  do 4 (split; [reflexivity|]).
  apply (invalid_config_is_run
           (HTTPBenchmark.generator
              (HTTPBenchmark.__init__ url duration levels request_type h d
                 mode jitter) concurrency) w).
  exact H.
Qed.

Lemma C2_witness :
  tasks_created (fst (LoadGenerator.run gen_bad_duration world_expired)) = 2%nat
  /\ requests (fst (LoadGenerator.run gen_bad_duration world_expired)) = [].
Proof.
  destruct (C2_invalid_config_is_run "http://example.com" 0 [2] "GET" None
              DataNone "burst" 10 2 world_expired)
    as (_ & _ & _ & _ & _ & Ht & Hr).
  - right. split; [lia|].
    repeat constructor; vm_compute; discriminate.
  - split; [exact Ht | exact Hr].
Defined.

(** C2, as it is worded, fails: the benchmark with levels 2 and 0 is an
    invalid configuration, and it is not refused before any run starts;
    the run at level 2 creates its two workers and sends four requests
    before the run at level 0 raises. *)
Lemma C2_counterexample :
  ~ (forall (self : HTTPBenchmark.t) (worlds : list RunWorld),
        invalid_config self ->
        rejected_before_any_run (HTTPBenchmark.run self worlds)).
Proof.
  intro H.
  destruct (H bench_bad_level [world2; world1]) as [Htrace _].
  - right. unfold bench_bad_level. simpl.
    apply Exists_cons_tl. apply Exists_cons_hd. lia.
  - vm_compute in Htrace. discriminate Htrace.
Qed.

(** What happens in that benchmark. *)
Lemma bench_bad_level_runs :
  tasks_created (fst (HTTPBenchmark.run bench_bad_level [world2; world1]))
    = 2%nat /\
  List.length
    (requests (fst (HTTPBenchmark.run bench_bad_level [world2; world1])))
    = 4%nat /\
  snd (HTTPBenchmark.run bench_bad_level [world2; world1])
    = Raise ZeroDivisionError.
Proof. vm_compute. repeat split. Qed.

(** ** The metrics dict *)

(** [reduce] in closed form. *)
Lemma reduce_eq self rs es :
  reduce self rs es =
  if (Z.of_nat (List.length rs) + Z.of_nat (List.length es) =? 0)
  then Raise ZeroDivisionError
  else Ok (base_metrics self rs es
             ++ match rs with [] => [] | _ :: _ => latency_metrics rs end)%list.
Proof.
  unfold reduce.
  destruct (Z.of_nat (List.length rs) + Z.of_nat (List.length es) =? 0);
    [reflexivity|].
  destruct rs as [|x rs]; [reflexivity|].
  change (0 <? List.length (x :: rs))%nat with true.
  with_strategy opaque [format_2f np_percentile float_div Z.of_nat]
    (cbv - [format_2f np_percentile float_div Z.of_nat List.length
              concurrency duration Z.add]).
  reflexivity.
Qed.

Lemma run_ok_inv self w tr m :
  LoadGenerator.run self w = (tr, Ok m) ->
  exists sh, gathered self w = (sh, Ok tt) /\
             tr = (trace sh ++ [CloseSession])%list /\
             reduce self (results sh) (errors sh) = Ok m.
Proof.
  unfold LoadGenerator.run.
  destruct (gathered self w) as [sh [[] | exc |]]; intro H;
    inversion H; subst; clear H.
  exists sh. auto.
Qed.


(** ** The report *)





(** ** The pacer *)

Lemma delay_uniform self u :
  mode self = "uniform" ->
  delay self u
  = inr (Some (numpy_random_uniform 0 (2 * avg_jitter self) u)).
Proof.
  intro Hm. unfold delay, pacer. rewrite Hm. reflexivity.
Qed.




(** ** The format [:.2f] *)

Lemma centi_comp (x y : Q) : (x == y)%Q -> centi x = centi y.
Proof.
  intro H. unfold centi. apply round_half_even_comp.
  rewrite (Qabs_wd x y H). reflexivity.
Qed.

Lemma format_2f_comp (x y : Q) : (x == y)%Q -> format_2f x = format_2f y.
Proof.
  intro H. unfold format_2f, Qlt_bool.
  rewrite (centi_comp x y H).
  assert (Hb : Qle_bool 0 x = Qle_bool 0 y).
  { apply Qleb_comp; [reflexivity | exact H]. }
  rewrite Hb. reflexivity.
Qed.

Lemma centi_mono (x y : Q) : (0 <= x)%Q -> (x <= y)%Q -> centi x <= centi y.
Proof.
  intros Hx Hxy. unfold centi. apply round_half_even_mono.
  rewrite (Qabs_pos x) by exact Hx.
  rewrite (Qabs_pos y) by lra. lra.
Qed.

Lemma centi_one : centi 1 = 100.
Proof. reflexivity. Qed.

Lemma two_digits_length (n : Z) :
  0 <= n < 100 -> String.length (two_digits n) = 2%nat.
Proof.
  intro Hn.
  assert (E : forallb
                (fun k => Nat.eqb (String.length (two_digits (Z.of_nat k))) 2)
                (seq 0 100) = true) by (vm_compute; reflexivity).
  rewrite forallb_forall in E.
  specialize (E (Z.to_nat n)).
  rewrite Z2Nat.id in E by lia.
  apply Nat.eqb_eq. apply E. apply in_seq. lia.
Qed.

(** A formatted number that is not negative: the whole part, a point, and
    two digits. *)
Lemma format_2f_shape (x : Q) :
  (0 <= x)%Q ->
  format_2f x = str (centi x / 100) ++ "." ++ two_digits (centi x mod 100)
  /\ String.length (two_digits (centi x mod 100)) = 2%nat.
Proof.
  intro Hx. split.
  - unfold format_2f. apply Qlt_bool_false in Hx. rewrite Hx. reflexivity.
  - apply two_digits_length. apply Z.mod_pos_bound. lia.
Qed.

(** ** The error rate *)

Lemma inject_Z_pos (z : Z) : 0 < z -> (0 < inject_Z z)%Q.
Proof. intro H. unfold Qlt. simpl. lia. Qed.

Lemma inject_Z_nonneg (z : Z) : 0 <= z -> (0 <= inject_Z z)%Q.
Proof. intro H. unfold Qle. simpl. lia. Qed.

Lemma error_rate_bounds (s e : Z) :
  0 <= s -> 0 <= e -> 0 < s + e ->
  (0 <= inject_Z e / inject_Z (s + e) <= 1)%Q.
Proof.
  intros Hs He Hse.
  pose proof (inject_Z_pos _ Hse) as Hpos.
  pose proof (inject_Z_nonneg _ He) as He'.
  pose proof (inject_Z_nonneg _ Hs) as Hs'.
  rewrite inject_Z_plus in *.
  split.
  - apply Qle_shift_div_l; [exact Hpos|]. lra.
  - apply Qle_shift_div_r; [exact Hpos|]. lra.
Qed.

Lemma reduce_ok_inv self rs es m :
  reduce self rs es = Ok m ->
  0 < Z.of_nat (List.length rs) + Z.of_nat (List.length es) /\
  m = (base_metrics self rs es
         ++ match rs with [] => [] | _ :: _ => latency_metrics rs end)%list.
Proof.
  rewrite reduce_eq.
  destruct (Z.of_nat (List.length rs) + Z.of_nat (List.length es) =? 0)
    eqn:Hz; [discriminate|].
  intro H. inversion H; subst. split; [|reflexivity].
  apply Z.eqb_neq in Hz. lia.
Qed.

Lemma latency_key_present rs es self p :
  In p percentiles -> rs <> [] ->
  dict_get (base_metrics self rs es ++ latency_metrics rs)%list
    (percentile_key p)
  = Some (PyStr (format_2f (np_percentile rs p))).
Proof.
  intros Hp _. unfold percentiles in Hp. simpl in Hp.
  destruct Hp as [<- | [<- | [<- | [<- | []]]]]; reflexivity.
Qed.

Lemma latency_key_absent rs es self p :
  In p percentiles ->
  dict_get (base_metrics self rs es) (percentile_key p) = None.
Proof.
  intros Hp. unfold percentiles in Hp. simpl in Hp.
  destruct Hp as [<- | [<- | [<- | [<- | []]]]]; reflexivity.
Qed.

Lemma run_snd self w sh :
  gathered self w = (sh, Ok tt) ->
  snd (LoadGenerator.run self w) = reduce self (results sh) (errors sh).
Proof. intro Hg. unfold LoadGenerator.run. rewrite Hg. reflexivity. Qed.

Lemma run_requests self w :
  requests (fst (LoadGenerator.run self w))
  = requests (trace (fst (gathered self w))).
Proof.
  unfold LoadGenerator.run.
  destruct (gathered self w) as [sh [[] | exc |]]; cbn [fst];
    try reflexivity; rewrite requests_app; apply app_nil_r.
Qed.

(** C5: when every worker of a run has stopped, the number of latencies
    plus the number of error markers is the number of requests the run
    sent.  When that number is positive, [run] returns a result whose
    "Successful Requests" and "Total Errors" are these two numbers; the
    sum is zero exactly when no request was sent (and [run] then raises
    instead of returning).  Every pass of a worker loop that finds the
    deadline not reached, and whose numpy draw does not raise, runs to
    its end and adds one sample and one request. *)
Theorem C5_samples_match_attempts (self : LoadGenerator.t) (w : RunWorld)
    (sh : Shared) :
  gathered self w = (sh, Ok tt) ->
  let successful_requests := List.length (results sh) in
  let error_count := List.length (errors sh) in
  let sent := requests (fst (LoadGenerator.run self w)) in
  (successful_requests + error_count = List.length sent)%nat /\
  ((successful_requests + error_count = 0)%nat <-> sent = []) /\
  (sent <> [] ->
   exists m,
     snd (LoadGenerator.run self w) = Ok m /\
     dict_get m "Successful Requests"
       = Some (PyInt (Z.of_nat successful_requests)) /\
     dict_get m "Total Errors" = Some (PyInt (Z.of_nat error_count))) /\
  (sent = [] -> snd (LoadGenerator.run self w) = Raise ZeroDivisionError) /\
  (forall end_time tn sh0 slept,
      (now tn < end_time)%Q ->
      delay self (variate (attempt tn)) = inr slept ->
      exists sh1,
        _worker self end_time tn sh0 = inr (Some sh1) /\
        (List.length (results sh1) + List.length (errors sh1)
         = S (List.length (results sh0) + List.length (errors sh0)))%nat /\
        List.length (requests (trace sh1))
        = S (List.length (requests (trace sh0)))).
Proof.
  intros Hg. cbv zeta.
  pose proof (gathered_counts _ _ _ _ Hg) as Hc.
  rewrite run_requests, Hg. cbn [fst].
  rewrite (run_snd _ _ _ Hg), reduce_eq.
  split; [exact Hc|]. split; [|split; [|split]].
  - rewrite Hc. split; intro H.
    + apply length_zero_iff_nil. exact H.
    + rewrite H. reflexivity.
  - intro Hsent.
    assert (Hpos : (0 < List.length (requests (trace sh)))%nat).
    { destruct (requests (trace sh)); [congruence | simpl; lia]. }
    destruct (Z.of_nat (List.length (results sh))
              + Z.of_nat (List.length (errors sh)) =? 0) eqn:Hz.
    + apply Z.eqb_eq in Hz. lia.
    + eexists. split; [reflexivity|]. split; reflexivity.
  - intro Hsent. rewrite Hsent in Hc. simpl in Hc.
    replace (Z.of_nat (List.length (results sh))
             + Z.of_nat (List.length (errors sh))) with 0 by lia.
    reflexivity.
  - intros end_time tn sh0 slept Hnow Hdelay.
    destruct (worker_pass_runs self end_time tn sh0 slept Hnow Hdelay)
      as [sh1 Hw].
    exists sh1. split; [exact Hw|].
    apply worker_pass in Hw.
    destruct Hw as (_ & Ht & [(latency & _ & Hr & He) | (Hr & He)]);
      rewrite Ht, Hr, He, !requests_app, requests_sleep_of;
      rewrite !length_app; simpl; lia.
Qed.

Lemma C5_witness :
  gathered gen2 world2 = (fst (gathered gen2 world2), Ok tt) /\
  (3 + 1
   = List.length (requests (fst (LoadGenerator.run gen2 world2))))%nat.
Proof.
  split; [vm_compute; reflexivity|].
  apply (C5_samples_match_attempts gen2 world2 (fst (gathered gen2 world2))).
  vm_compute; reflexivity.
Defined.

(** C8: in the result of a run, each of the four percentile fields is
    present exactly when there is at least one successful request.  A run
    in which every attempt failed returns a result with no successful
    request, a positive number of errors, the error rate 1 (printed
    "1.00") and no percentile field. *)
Theorem C8_percentiles_iff_successes (self : LoadGenerator.t) (w : RunWorld)
    (sh : Shared) :
  gathered self w = (sh, Ok tt) ->
  (forall m, snd (LoadGenerator.run self w) = Ok m ->
     forall p, In p percentiles ->
       (dict_get m (percentile_key p) <> None
        <-> (0 < List.length (results sh))%nat)) /\
  (results sh = [] -> errors sh <> [] ->
     let error_count := Z.of_nat (List.length (errors sh)) in
     0 < error_count /\
     (inject_Z error_count / inject_Z (0 + error_count) == 1)%Q /\
     snd (LoadGenerator.run self w)
     = Ok [ ("Concurrency Level", PyInt (concurrency self));
            ("Duration (s)", PyInt (duration self));
            ("Successful Requests", PyInt 0);
            ("Total Errors", PyInt error_count);
            ("Error Rate (%)", PyStr "1.00") ]).
Proof.
  intro Hg. rewrite (run_snd _ _ _ Hg). split.
  - intros m Hm p Hp. apply reduce_ok_inv in Hm. destruct Hm as [_ ->].
    destruct (results sh) as [|x rs] eqn:Hrs.
    + rewrite app_nil_r, latency_key_absent by exact Hp.
      simpl. split; [congruence | lia].
    + rewrite latency_key_present by (exact Hp || discriminate).
      simpl. split; [lia | discriminate].
  - intros Hrs Hes. cbv zeta.
    assert (Hn : 0 < Z.of_nat (List.length (errors sh))).
    { destruct (errors sh); [congruence | simpl; lia]. }
    assert (Hrate : (inject_Z (Z.of_nat (List.length (errors sh)))
                     / inject_Z (0 + Z.of_nat (List.length (errors sh)))
                     == 1)%Q).
    { pose proof (inject_Z_pos _ Hn).
      rewrite Z.add_0_l. field. lra. }
    split; [exact Hn|]. split; [exact Hrate|].
    rewrite reduce_eq, Hrs.
    change (Z.of_nat (List.length (@nil Q))) with 0.
    destruct (0 + Z.of_nat (List.length (errors sh)) =? 0) eqn:Hz.
    + apply Z.eqb_eq in Hz. lia.
    + rewrite app_nil_r. unfold base_metrics.
      change (Z.of_nat (List.length (@nil Q))) with 0.
      unfold float_div. rewrite (b64_comp _ 1 Hrate). reflexivity.
Qed.

Lemma C8_witness :
  dict_get
    (match snd (LoadGenerator.run gen2 world2) with Ok m => m | _ => [] end)
    (percentile_key 50)
  <> None.
Proof.
  destruct (C8_percentiles_iff_successes gen2 world2
              (fst (gathered gen2 world2))) as [H _].
  - vm_compute; reflexivity.
  - apply (H (match snd (LoadGenerator.run gen2 world2) with
              | Ok m => m
              | _ => []
              end)) with (p := 50).
    + vm_compute; reflexivity.
    + left; reflexivity.
    + vm_compute. lia.
Defined.

(** ** Percentiles *)

Lemma insert_sorted_Forall (P : Q -> Prop) x l :
  P x -> Forall P l -> Forall P (insert_sorted x l).
Proof.
  intros Hx Hl. induction Hl as [|y l Hy Hl IH]; simpl.
  - auto.
  - destruct (Qle_bool x y); auto.
Qed.

Lemma insert_sorted_sorted x l :
  StronglySorted Qle l -> StronglySorted Qle (insert_sorted x l).
Proof.
  induction 1 as [|y l Hs IH Hy]; simpl.
  - repeat constructor.
  - destruct (Qle_bool x y) eqn:Hxy.
    + apply Qle_bool_iff in Hxy.
      constructor; [constructor; assumption|].
      constructor; [exact Hxy|].
      eapply Forall_impl; [|exact Hy].
      intros z Hz. eapply Qle_trans; eassumption.
    + apply Qle_bool_false in Hxy.
      constructor; [exact IH|].
      apply insert_sorted_Forall; [apply Qlt_le_weak; exact Hxy | exact Hy].
Qed.

Lemma sort_sorted l : StronglySorted Qle (sort l).
Proof.
  induction l as [|x l IH]; simpl; [constructor|].
  apply insert_sorted_sorted. exact IH.
Qed.

Lemma insert_sorted_length x l :
  List.length (insert_sorted x l) = S (List.length l).
Proof.
  induction l as [|y l IH]; simpl; [reflexivity|].
  destruct (Qle_bool x y); simpl; congruence.
Qed.

Lemma sort_length l : List.length (sort l) = List.length l.
Proof.
  induction l as [|x l IH]; simpl; [reflexivity|].
  rewrite insert_sorted_length. congruence.
Qed.

Lemma sort_Forall (P : Q -> Prop) l : Forall P l -> Forall P (sort l).
Proof.
  induction 1; simpl; [constructor|].
  apply insert_sorted_Forall; assumption.
Qed.

Lemma sorted_nth s :
  StronglySorted Qle s ->
  forall i j, (i <= j)%nat -> (j < List.length s)%nat ->
    (nth i s 0 <= nth j s 0)%Q.
Proof.
  induction 1 as [|x s Hs IH Hx]; intros i j Hij Hj; simpl in Hj; [lia|].
  destruct i as [|i], j as [|j]; simpl; try lia.
  - apply Qle_refl.
  - rewrite Forall_forall in Hx. apply Hx. apply nth_In. lia.
  - apply IH; lia.
Qed.

Lemma lerp_bounds (previous next gamma : Q) :
  (previous <= next)%Q -> (0 <= gamma <= 1)%Q ->
  (previous <= previous + (next - previous) * gamma <= next)%Q.
Proof. intros H [H0 H1]. split; nra. Qed.

Lemma Qfloor_range (n : Z) (v : Q) :
  (0 <= v)%Q -> (v <= inject_Z n)%Q -> 0 <= Qfloor v <= n.
Proof.
  intros H0 Hn. split.
  - change 0 with (Qfloor 0). apply Qfloor_resp_le. exact H0.
  - rewrite <- (Qfloor_Z n). apply Qfloor_resp_le. exact Hn.
Qed.

Lemma Qfloor_frac (v : Q) : (0 <= v - inject_Z (Qfloor v) <= 1)%Q.
Proof.
  pose proof (Qfloor_le v) as Hl.
  pose proof (Qlt_floor v) as Hu.
  rewrite inject_Z_succ in Hu.
  split; lra.
Qed.



Lemma np_percentile_nonneg a p :
  a <> [] -> Forall (fun x => (0 <= x)%Q) a -> 0 <= p <= 100 ->
  (0 <= np_percentile a p)%Q.
Proof.
  intros Hne Hpos [Hp0 Hp1]. unfold np_percentile.
  assert (Hlen : (0 < List.length (sort a))%nat).
  { rewrite sort_length. destruct a; [congruence | simpl; lia]. }
  set (s := sort a) in *.
  set (n := Z.of_nat (List.length s)).
  set (v := (inject_Z (n - 1) * (inject_Z p / 100))%Q).
  assert (Hn : (0 <= inject_Z (n - 1))%Q) by (apply inject_Z_nonneg; lia).
  assert (Hp' : (0 <= inject_Z p)%Q) by (apply inject_Z_nonneg; lia).
  assert (Hq' : (inject_Z p <= 100)%Q).
  { change 100%Q with (inject_Z 100). rewrite <- Zle_Qle. lia. }
  assert (Hdp : (0 <= inject_Z p / 100)%Q).
  { apply Qle_shift_div_l; [reflexivity | lra]. }
  assert (Hdq : (inject_Z p / 100 <= 1)%Q).
  { apply Qle_shift_div_r; [reflexivity | lra]. }
  assert (Hv : (0 <= v)%Q) by (unfold v; nra).
  assert (Hvn : (v <= inject_Z (n - 1))%Q) by (unfold v; nra).
  assert (Hiv : 0 <= Qfloor v <= n - 1) by (apply Qfloor_range; assumption).
  unfold lerp_at. fold n.
  assert (Hsorted : (nth (Z.to_nat (Qfloor v)) s 0
                     <= nth (Z.to_nat (Z.min (Qfloor v + 1) (n - 1))) s 0)%Q).
  { apply sorted_nth; [apply sort_sorted | lia | lia]. }
  pose proof (lerp_bounds _ _ _ Hsorted (Qfloor_frac v)) as [Hlow _].
  eapply Qle_trans; [|exact Hlow].
  assert (Hall : Forall (fun x => (0 <= x)%Q) s) by (apply sort_Forall; exact Hpos).
  rewrite Forall_forall in Hall. apply Hall. apply nth_In. lia.
Qed.

(** The latencies collected by a run are not negative. *)
Lemma gathered_results_nonneg self w sh r :
  gathered self w = (sh, r) -> Forall (fun x => (0 <= x)%Q) (results sh).
Proof.
  unfold gathered. intro Hg.
  eapply (gather_invariant
            (fun sh => Forall (fun x => (0 <= x)%Q) (results sh)));
    [| |exact Hg].
  - intros tn sh0 sh1 HP Hw. apply worker_pass in Hw.
    destruct Hw as (_ & _ & [(latency & Hlat & Hr & _) | (Hr & _)]);
      rewrite Hr; [|exact HP].
    apply Forall_app. split; [exact HP|]. constructor; [exact Hlat|constructor].
  - constructor.
Qed.



(** C10: in the result of a run, the value under "Error Rate (%)" is a
    string: the print with two decimals of the float quotient of the
    number of errors by the number of attempts.  That float is the double
    nearest to the error fraction, which lies between 0 and 1, so the
    print is at most "1.00": the fraction is not multiplied by 100.  The
    value of each percentile field is likewise the print with two
    decimals of a number that is not negative. *)
Theorem C10_error_rate_is_a_formatted_fraction (self : LoadGenerator.t)
    (w : RunWorld) (sh : Shared) (m : Dict) :
  gathered self w = (sh, Ok tt) ->
  snd (LoadGenerator.run self w) = Ok m ->
  let successful_requests := Z.of_nat (List.length (results sh)) in
  let error_count := Z.of_nat (List.length (errors sh)) in
  let fraction :=
    (inject_Z error_count / inject_Z (successful_requests + error_count))%Q in
  let error_rate :=
    float_div error_count (successful_requests + error_count) in
  0 < successful_requests + error_count /\
  (0 <= fraction <= 1)%Q /\
  (0 <= error_rate <= 1)%Q /\
  (- (fraction * 2 ^ (-53)) <= error_rate - fraction
   <= fraction * 2 ^ (-53))%Q /\
  dict_get m "Error Rate (%)" = Some (PyStr (format_2f error_rate)) /\
  format_2f error_rate
    = str (centi error_rate / 100) ++ "."
        ++ two_digits (centi error_rate mod 100) /\
  String.length (two_digits (centi error_rate mod 100)) = 2%nat /\
  centi error_rate <= 100 /\
  (forall p, In p percentiles -> results sh <> [] ->
     exists x,
       (0 <= x)%Q /\
       dict_get m (percentile_key p) = Some (PyStr (format_2f x)) /\
       format_2f x
         = str (centi x / 100) ++ "." ++ two_digits (centi x mod 100) /\
       String.length (two_digits (centi x mod 100)) = 2%nat).
Proof.
  intros Hg Hm. cbv zeta. rewrite (run_snd _ _ _ Hg) in Hm.
  apply reduce_ok_inv in Hm. destruct Hm as [Hpos ->].
  assert (Hb : (0 <= inject_Z (Z.of_nat (List.length (errors sh)))
                     / inject_Z (Z.of_nat (List.length (results sh))
                                 + Z.of_nat (List.length (errors sh))) <= 1)%Q).
  { apply error_rate_bounds; lia. }
  assert (Hr : (0 <= float_div (Z.of_nat (List.length (errors sh)))
                      (Z.of_nat (List.length (results sh))
                       + Z.of_nat (List.length (errors sh))) <= 1)%Q).
  { unfold float_div. split; [apply b64_nonneg | apply b64_le_1]; apply Hb. }
  destruct (format_2f_shape _ (proj1 Hr)) as [Hshape Hlen].
  split; [exact Hpos|]. split; [exact Hb|]. split; [exact Hr|].
  split; [unfold float_div; apply b64_error_nonneg; apply Hb|].
  split; [reflexivity|]. split; [exact Hshape|]. split; [exact Hlen|].
  split.
  - rewrite <- centi_one. apply centi_mono; apply Hr.
  - intros p Hp Hrs.
    assert (Hx : (0 <= np_percentile (results sh) p)%Q).
    { apply np_percentile_nonneg; [exact Hrs | | ].
      - exact (gathered_results_nonneg _ _ _ _ Hg).
      - unfold percentiles in Hp. simpl in Hp.
        destruct Hp as [<- | [<- | [<- | [<- | []]]]]; lia. }
    exists (np_percentile (results sh) p).
    destruct (format_2f_shape _ Hx) as [Hs Hl].
    split; [exact Hx|]. split; [|split; [exact Hs | exact Hl]].
    destruct (results sh) as [|x rs] eqn:E; [congruence|].
    apply latency_key_present; [exact Hp | discriminate].
Qed.

Lemma C10_witness :
  dict_get
    (match snd (LoadGenerator.run gen2 world2) with Ok m => m | _ => [] end)
    "Error Rate (%)"
  = Some (PyStr "0.25").
Proof.
  destruct (C10_error_rate_is_a_formatted_fraction gen2 world2
              (fst (gathered gen2 world2))
              (match snd (LoadGenerator.run gen2 world2) with
               | Ok m => m
               | _ => []
               end)) as (_ & _ & _ & _ & H & _).
  - vm_compute; reflexivity.
  - vm_compute; reflexivity.
  - exact H.
Defined.

(** ** The run returns *)

(** When every task has, in the schedule, a turn at which the deadline is
    reached, [gather] does not stay pending: it returns, or a numpy draw
    raised. *)
Lemma gather_returns self end_time sched :
  forall tasks sh,
    (forall i, nth i tasks false = true ->
       exists tn, In tn sched /\ who tn = i /\ (end_time <= now tn)%Q) ->
    snd (gather self end_time sched tasks sh) <> Pending.
Proof.
  induction sched as [|tn sched IH]; intros tasks sh Hcover.
  - simpl. destruct (all_done tasks) eqn:Hdone; [discriminate|].
    exfalso. unfold all_done in Hdone.
    assert (Hex : exists i, nth i tasks false = true).
    { clear Hcover. induction tasks as [|b tasks IHt]; [discriminate|].
      simpl in Hdone. destruct b.
      - exists 0%nat. reflexivity.
      - destruct (IHt Hdone) as [i Hi]. exists (S i). exact Hi. }
    destruct Hex as [i Hi]. destruct (Hcover i Hi) as (tn & [] & _).
  - destruct (all_done tasks) eqn:Hdone.
    + rewrite gather_all_done by exact Hdone. discriminate.
    + rewrite gather_step by exact Hdone.
      destruct (nth (who tn) tasks false) eqn:Hrun.
      * destruct (_worker self end_time tn sh) as [exc | [sh1 |]] eqn:Hw.
        -- discriminate.
        -- apply IH. intros i Hi.
           destruct (Hcover i Hi) as (tn' & [<- | Hin] & Hwho & Hnow).
           ++ exfalso. apply worker_pass in Hw. destruct Hw as [Hlt _].
              exact (Qlt_not_le _ _ Hlt Hnow).
           ++ exists tn'. auto.
        -- apply IH. intros i Hi.
           assert (Hne : i <> who tn /\ nth i tasks false = true).
           { clear - Hi. revert i Hi. generalize (who tn) as k.
             induction tasks as [|b tasks IHt]; intros k i Hi.
             - destruct k, i; discriminate.
             - destruct k as [|k], i as [|i]; simpl in Hi |- *;
                 try discriminate; try (split; [lia | exact Hi]).
               destruct (IHt k i Hi) as [Hne Hnth].
               split; [lia | exact Hnth]. }
           destruct Hne as [Hne Hi'].
           destruct (Hcover i Hi') as (tn' & [<- | Hin] & Hwho & Hnow).
           ++ congruence.
           ++ exists tn'. auto.
      * apply IH. intros i Hi.
        destruct (Hcover i Hi) as (tn' & [<- | Hin] & Hwho & Hnow).
        -- congruence.
        -- exists tn'. auto.
Qed.

Lemma delay_no_raise self v :
  (0 <= avg_jitter self)%Q -> exists slept, delay self v = inr slept.
Proof.
  intro Hj. unfold delay, pacer.
  destruct (String.eqb (mode self) "uniform"); [eexists; reflexivity|].
  destruct (String.eqb (mode self) "exponential"); [|eexists; reflexivity].
  simpl. unfold numpy_random_exponential.
  apply Qlt_bool_false in Hj. rewrite Hj. eexists; reflexivity.
Qed.

Lemma worker_no_raise self end_time tn sh :
  (0 <= avg_jitter self)%Q ->
  exists next, _worker self end_time tn sh = inr next.
Proof.
  intro Hj. unfold _worker.
  destruct (Qlt_bool (now tn) end_time); [|eexists; reflexivity].
  unfold _send_request.
  destruct (delay_no_raise self (variate (attempt tn)) Hj) as [slept ->].
  destruct (transport (attempt tn));
    match goal with
    | |- context [Qle_bool 0 ?l] => destruct (Qle_bool 0 l)
    end; eexists; reflexivity.
Qed.

Lemma gather_no_raise self end_time sched :
  (0 <= avg_jitter self)%Q ->
  forall tasks sh exc, snd (gather self end_time sched tasks sh) <> Raise exc.
Proof.
  intro Hj. induction sched as [|tn sched IH]; intros tasks sh exc.
  - simpl. destruct (all_done tasks); discriminate.
  - destruct (all_done tasks) eqn:Hdone.
    + rewrite gather_all_done by exact Hdone. discriminate.
    + rewrite gather_step by exact Hdone.
      destruct (nth (who tn) tasks false); [|apply IH].
      destruct (worker_no_raise self end_time tn sh Hj) as [[sh1 |] ->];
        apply IH.
Qed.

Lemma nth_repeat_true i n : nth i (repeat true n) false = true -> (i < n)%nat.
Proof.
  revert i. induction n as [|n IH]; intros [|i] H; simpl in H;
    try discriminate; [lia|].
  apply IH in H. lia.
Qed.

(** A run returns from [gather] when the average jitter is not negative
    and every worker gets a turn at which the deadline is reached. *)
Lemma run_gathers self w :
  (0 <= avg_jitter self)%Q ->
  (forall i, (i < Z.to_nat (concurrency self))%nat ->
     exists tn, In tn (schedule w) /\ who tn = i /\
       (wall_start w + inject_Z (duration self) <= now tn)%Q) ->
  exists sh, gathered self w = (sh, Ok tt).
Proof.
  intros Hj Hcover. unfold gathered.
  destruct (gather self (wall_start w + inject_Z (duration self))
              (schedule w) (spawn self) (started self)) as [sh r] eqn:Hg.
  exists sh. f_equal.
  pose proof (gather_returns self (wall_start w + inject_Z (duration self))
                (schedule w) (spawn self) (started self)) as Hret.
  pose proof (gather_no_raise self (wall_start w + inject_Z (duration self))
                (schedule w) Hj (spawn self) (started self)) as Hnr.
  rewrite Hg in Hret, Hnr. simpl in Hret, Hnr.
  destruct r as [[] | exc |].
  - reflexivity.
  - exfalso. exact (Hnr exc eq_refl).
  - exfalso. apply Hret; [|reflexivity].
    intros i Hi. apply Hcover. apply nth_repeat_true. exact Hi.
Qed.

(** ** Examples *)

(** A run against a target that refuses every connection. *)
Example run_unreachable :
  LoadGenerator.run gen2 world_unreachable
  = ([ OpenSession None; CreateTask; CreateTask;
       Sleep (20 # 2000);
       Request "GET" "http://example.com" (DataBytes "abc")
         (Raised "ClientConnectorError");
       Sleep (20 # 2000);
       Request "GET" "http://example.com" (DataBytes "abc")
         (Raised "ClientConnectorError");
       Sleep (20 # 2000);
       Request "GET" "http://example.com" (DataBytes "abc")
         (Raised "ClientConnectorError");
       CloseSession ],
     Ok [ ("Concurrency Level", PyInt 2); ("Duration (s)", PyInt 3);
          ("Successful Requests", PyInt 0); ("Total Errors", PyInt 3);
          ("Error Rate (%)", PyStr "1.00") ]).
Proof. vm_compute. reflexivity. Qed.

(** One error in four attempts is printed "0.25" under "Error Rate (%)". *)
Example run_world2 :
  snd (LoadGenerator.run gen2 world2)
  = Ok [ ("Concurrency Level", PyInt 2); ("Duration (s)", PyInt 3);
         ("Successful Requests", PyInt 3); ("Total Errors", PyInt 1);
         ("Error Rate (%)", PyStr "0.25");
         ("p50 Latency (ms)", PyStr "7.00");
         ("p75 Latency (ms)", PyStr "9.50");
         ("p95 Latency (ms)", PyStr "11.50");
         ("p99 Latency (ms)", PyStr "11.90") ].
Proof. vm_compute. reflexivity. Qed.

(** With a negative average jitter the exponential draw raises, and the
    exception leaves the run. *)
Example run_negative_jitter :
  LoadGenerator.run gen_negative_jitter world1
  = ([OpenSession None; CreateTask; CloseSession],
     Raise (ValueError "scale < 0")).
Proof. vm_compute. reflexivity. Qed.

(** With a duration of zero the workers are created and stop at once. *)
Example run_zero_duration :
  LoadGenerator.run gen_bad_duration world_expired
  = ([OpenSession None; CreateTask; CreateTask; CloseSession],
     Raise ZeroDivisionError).
Proof. vm_compute. reflexivity. Qed.

(** The data the command line passes on for GET and for POST. *)
Example process_data_examples :
  let fs := {| FireBench.isfile := fun _ => false;
               FireBench.open_error := fun _ => None;
               FireBench.read := fun _ => "" |} in
  let args (m : string) :=
    {| FireBench.url := "http://example.com"; FireBench.duration := 10;
       FireBench.concurrency_levels := [1]; FireBench.request_type := m;
       FireBench.mode := "exponential"; FireBench.avg_jitter := 10;
       FireBench.data := Some "payload"; FireBench.data_binary := None;
       FireBench.header := [] |} in
  FireBench.process_data fs (args "GET") = inr (DataStr "") /\
  FireBench.process_data fs (args "POST") = inr (DataStr "payload").
Proof. split; reflexivity. Qed.

(** * Further properties of the load generator *)

(** ** The shape of the trace of a run *)

Lemma sleep_of_worker_effects self a :
  forallb is_worker_effect (sleep_of self a) = true.
Proof.
  unfold sleep_of.
  destruct (delay self (variate a)) as [? | [? |]]; reflexivity.
Qed.

Lemma gathered_trace self w sh r :
  gathered self w = (sh, r) ->
  exists body,
    forallb is_worker_effect body = true /\
    trace sh = (trace (started self) ++ body)%list.
Proof.
  unfold gathered. intro Hg.
  eapply (gather_invariant
            (fun sh => exists body,
                 forallb is_worker_effect body = true /\
                 trace sh = (trace (started self) ++ body)%list));
    [| |exact Hg].
  - intros tn sh0 sh1 (body & Hbody & Htr) Hw. apply worker_pass in Hw.
    destruct Hw as (_ & Ht & _).
    exists (body ++ sleep_of self (attempt tn)
              ++ [request_of self (attempt tn)])%list.
    split.
    + rewrite !forallb_app, Hbody, sleep_of_worker_effects. reflexivity.
    + rewrite Ht, Htr, <- app_assoc. reflexivity.
  - exists []. split; [reflexivity|]. rewrite app_nil_r. reflexivity.
Qed.

(** X1: the trace of a run opens the session, then creates all the tasks
    (as many as the concurrency level, none when it is not positive),
    then holds only sleeps and requests of the workers, and closes the
    session whenever the run returns or raises. *)
Theorem run_trace_shape (self : LoadGenerator.t) (w : RunWorld) :
  exists body,
    forallb is_worker_effect body = true /\
    fst (LoadGenerator.run self w)
    = (OpenSession (headers self)
         :: repeat CreateTask (Z.to_nat (concurrency self))
         ++ body
         ++ match snd (LoadGenerator.run self w) with
            | Pending => []
            | _ => [CloseSession]
            end)%list.
Proof.
  unfold LoadGenerator.run.
  destruct (gathered self w) as [sh r] eqn:Hg.
  destruct (gathered_trace _ _ _ _ Hg) as (body & Hbody & Htr).
  exists body. split; [exact Hbody|].
  unfold started in Htr. simpl in Htr.
  destruct r as [[] | exc |]; cbn [fst snd]; rewrite Htr; simpl.
  - rewrite reduce_eq.
    destruct (Z.of_nat (List.length (results sh))
              + Z.of_nat (List.length (errors sh)) =? 0);
      rewrite <- !app_assoc; reflexivity.
  - rewrite <- !app_assoc; reflexivity.
  - rewrite app_nil_r. reflexivity.
Qed.

(** ** Pacing *)

Lemma pacer_modes self :
  (mode self = "uniform" \/ mode self = "exponential" ->
   exists d, pacer self = Some d) /\
  (mode self <> "uniform" -> mode self <> "exponential" ->
   pacer self = None).
Proof.
  unfold pacer. split.
  - intros [H | H]; rewrite H; simpl; eexists; reflexivity.
  - intros H1 H2.
    apply String.eqb_neq in H1. apply String.eqb_neq in H2.
    rewrite H1, H2. reflexivity.
Qed.

Lemma worker_pass_sleeps self end_time tn sh sh' :
  _worker self end_time tn sh = inr (Some sh') ->
  List.length (sleeps (sleep_of self (attempt tn)))
  = match pacer self with Some _ => 1%nat | None => 0%nat end.
Proof.
  unfold _worker, _send_request, sleep_of, delay.
  destruct (Qlt_bool (now tn) end_time); [|discriminate].
  destruct (pacer self) as [d |]; [|reflexivity].
  destruct (dist_draw d (variate (attempt tn))); [discriminate|reflexivity].
Qed.

Lemma sleeps_app tr tr' : sleeps (tr ++ tr') = (sleeps tr ++ sleeps tr')%list.
Proof. apply filter_app. Qed.

Lemma gathered_sleeps self w sh r :
  gathered self w = (sh, r) ->
  List.length (sleeps (trace sh))
  = match pacer self with
    | Some _ => List.length (requests (trace sh))
    | None => 0%nat
    end.
Proof.
  unfold gathered. intro Hg.
  eapply (gather_invariant
            (fun sh => List.length (sleeps (trace sh))
                       = match pacer self with
                         | Some _ => List.length (requests (trace sh))
                         | None => 0%nat
                         end)); [| |exact Hg].
  - intros tn sh0 sh1 HP Hw.
    pose proof (worker_pass_sleeps _ _ _ _ _ Hw) as Hs.
    apply worker_pass in Hw. destruct Hw as (_ & Ht & _).
    rewrite Ht, !sleeps_app, !requests_app, requests_sleep_of, !length_app.
    rewrite Hs, HP. simpl.
    destruct (pacer self); simpl; lia.
  - unfold started, sleeps, requests. simpl.
    rewrite filter_request_repeat_create_task.
    assert (H : filter is_sleep (repeat CreateTask (Z.to_nat (concurrency self)))
                = []).
    { induction (Z.to_nat (concurrency self)); simpl; auto. }
    rewrite H. destruct (pacer self); reflexivity.
Qed.

Lemma run_trace_filter (f : Effect -> bool) self w :
  f CloseSession = false ->
  filter f (fst (LoadGenerator.run self w))
  = filter f (trace (fst (gathered self w))).
Proof.
  intro Hf. unfold LoadGenerator.run.
  destruct (gathered self w) as [sh [[] | exc |]]; cbn [fst];
    try reflexivity; rewrite filter_app; simpl; rewrite Hf;
    apply app_nil_r.
Qed.

(** X2: in the modes "uniform" and "exponential" a run sleeps once for
    each request it sends; in any other mode ("burst", or a string that
    is none of the three) it never sleeps. *)
Theorem run_sleeps_by_mode (self : LoadGenerator.t) (w : RunWorld) :
  let tr := fst (LoadGenerator.run self w) in
  (mode self = "uniform" \/ mode self = "exponential" ->
   List.length (sleeps tr) = List.length (requests tr)) /\
  (mode self <> "uniform" -> mode self <> "exponential" -> sleeps tr = []).
Proof.
  cbv zeta. unfold sleeps, requests.
  rewrite !run_trace_filter by reflexivity.
  destruct (gathered self w) as [sh r] eqn:Hg. cbn [fst].
  pose proof (gathered_sleeps _ _ _ _ Hg) as Hs.
  destruct (pacer_modes self) as [Hpaced Hburst].
  split.
  - intro Hm. destruct (Hpaced Hm) as [d Hd]. rewrite Hd in Hs. exact Hs.
  - intros H1 H2. rewrite (Hburst H1 H2) in Hs.
    apply length_zero_iff_nil. exact Hs.
Qed.

Lemma run_sleeps_by_mode_witness :
  List.length (sleeps (fst (LoadGenerator.run gen2 world2))) = 4%nat /\
  sleeps (fst (LoadGenerator.run gen_bad_duration world1)) = [].
Proof.
  split.
  - destruct (run_sleeps_by_mode gen2 world2) as [H _].
    rewrite H; [vm_compute; reflexivity | left; reflexivity].
  - destruct (run_sleeps_by_mode gen_bad_duration world1) as [_ H].
    apply H; discriminate.
Defined.

(** ** A negative average jitter in the exponential mode *)

Lemma worker_negative_jitter self end_time tn sh :
  mode self = "exponential" -> (avg_jitter self < 0)%Q ->
  _worker self end_time tn sh = inr None \/
  _worker self end_time tn sh = inl (ValueError "scale < 0").
Proof.
  intros Hm Hj. unfold _worker.
  destruct (Qlt_bool (now tn) end_time); [right | left; reflexivity].
  unfold _send_request, delay, pacer. rewrite Hm. simpl.
  unfold numpy_random_exponential.
  apply Qlt_bool_true in Hj. rewrite Hj. reflexivity.
Qed.

Lemma gather_negative_jitter self end_time sched :
  mode self = "exponential" -> (avg_jitter self < 0)%Q ->
  forall tasks sh,
    fst (gather self end_time sched tasks sh) = sh /\
    forall exc, snd (gather self end_time sched tasks sh) = Raise exc ->
                exc = ValueError "scale < 0".
Proof.
  intros Hm Hj. induction sched as [|tn sched IH]; intros tasks sh.
  - simpl. destruct (all_done tasks); split; try reflexivity; discriminate.
  - destruct (all_done tasks) eqn:Hdone.
    + rewrite gather_all_done by exact Hdone.
      split; [reflexivity | discriminate].
    + rewrite gather_step by exact Hdone.
      destruct (nth (who tn) tasks false); [|apply IH].
      destruct (worker_negative_jitter self end_time tn sh Hm Hj) as [-> | ->].
      * apply IH.
      * split; [reflexivity|]. intros exc H. inversion H. reflexivity.
Qed.

(** X3: with a negative average jitter in the exponential mode, a run
    sends no request and never returns metrics, whatever the world: the
    first worker that enters its loop raises [ValueError] from the numpy
    draw, and a run in which no worker enters its loop divides by zero. *)
Theorem negative_jitter_run_never_returns (self : LoadGenerator.t)
    (w : RunWorld) :
  mode self = "exponential" -> (avg_jitter self < 0)%Q ->
  requests (fst (LoadGenerator.run self w)) = [] /\
  (snd (LoadGenerator.run self w) = Raise (ValueError "scale < 0") \/
   snd (LoadGenerator.run self w) = Raise ZeroDivisionError \/
   snd (LoadGenerator.run self w) = Pending).
Proof.
  intros Hm Hj. unfold requests.
  rewrite run_trace_filter by reflexivity.
  unfold LoadGenerator.run, gathered.
  destruct (gather_negative_jitter self
              (wall_start w + inject_Z (duration self)) (schedule w) Hm Hj
              (spawn self) (started self)) as [Hsh Hexc].
  destruct (gather self (wall_start w + inject_Z (duration self))
              (schedule w) (spawn self) (started self)) as [sh r].
  simpl in Hsh, Hexc. subst sh. cbn [fst]. split.
  - apply started_requests.
  - destruct r as [[] | exc |]; cbn [snd].
    + right. left. reflexivity.
    + left. rewrite (Hexc exc eq_refl). reflexivity.
    + right. right. reflexivity.
Qed.

Lemma negative_jitter_run_never_returns_witness :
  snd (LoadGenerator.run gen_negative_jitter world1)
    = Raise (ValueError "scale < 0") \/
  snd (LoadGenerator.run gen_negative_jitter world1) = Raise ZeroDivisionError \/
  snd (LoadGenerator.run gen_negative_jitter world1) = Pending.
Proof.
  apply (negative_jitter_run_never_returns gen_negative_jitter world1).
  - reflexivity.
  - vm_compute; reflexivity.
Defined.

(** ** The run comes to an end *)

(** X4: when the average jitter is not negative and every worker gets a
    turn at which the deadline is reached, the run comes to an end: it
    returns its metrics, or, when no request was sent, it raises
    [ZeroDivisionError]. *)
Theorem run_comes_to_an_end (self : LoadGenerator.t) (w : RunWorld) :
  (0 <= avg_jitter self)%Q ->
  (forall i, (i < Z.to_nat (concurrency self))%nat ->
     exists tn, In tn (schedule w) /\ who tn = i /\
       (wall_start w + inject_Z (duration self) <= now tn)%Q) ->
  (exists m, snd (LoadGenerator.run self w) = Ok m) \/
  (snd (LoadGenerator.run self w) = Raise ZeroDivisionError /\
   requests (fst (LoadGenerator.run self w)) = []).
Proof.
  intros Hj Hcover.
  destruct (run_gathers self w Hj Hcover) as [sh Hg].
  pose proof (gathered_counts _ _ _ _ Hg) as Hc.
  unfold requests at 1. rewrite run_trace_filter by reflexivity.
  rewrite (run_snd _ _ _ Hg), Hg, reduce_eq. cbn [fst].
  destruct (Z.of_nat (List.length (results sh))
            + Z.of_nat (List.length (errors sh)) =? 0) eqn:Hz.
  - right. split; [reflexivity|].
    apply Z.eqb_eq in Hz. apply length_zero_iff_nil.
    fold (requests (trace sh)). lia.
  - left. eexists. reflexivity.
Qed.

Lemma run_comes_to_an_end_witness :
  (exists m, snd (LoadGenerator.run gen2 world2) = Ok m) \/
  (snd (LoadGenerator.run gen2 world2) = Raise ZeroDivisionError /\
   requests (fst (LoadGenerator.run gen2 world2)) = []).
Proof.
  apply (run_comes_to_an_end gen2 world2).
  - vm_compute; discriminate.
  - intros i Hi.
    assert (Hcases : i = 0%nat \/ i = 1%nat).
    { change (Z.to_nat (concurrency gen2)) with 2%nat in Hi. lia. }
    destruct Hcases as [-> | ->].
    + exists (turn 0 104 (ok_attempt 1)).
      split; [simpl; tauto|]. split; [reflexivity|].
      vm_compute; discriminate.
    + exists (turn 1 103 failed_attempt).
      split; [simpl; tauto|]. split; [reflexivity|].
      vm_compute; discriminate.
Defined.

(** ** The deadline *)

Lemma finish_length i tasks : List.length (finish i tasks) = List.length tasks.
Proof.
  revert i. induction tasks as [|b tasks IH]; intros [|i]; simpl; auto.
Qed.

Lemma nth_true_lt i (tasks : Tasks) :
  nth i tasks false = true -> (i < List.length tasks)%nat.
Proof.
  revert i. induction tasks as [|b tasks IH]; intros [|i] H; simpl in *;
    try discriminate; [lia|].
  apply IH in H. lia.
Qed.

Lemma gather_requests_bound self end_time sched :
  forall tasks sh,
    (List.length (requests (trace (fst (gather self end_time sched tasks sh))))
     <= List.length (requests (trace sh))
        + List.length
            (filter (fun tn => (who tn <? List.length tasks)%nat
                               && Qlt_bool (now tn) end_time) sched))%nat.
Proof.
  induction sched as [|tn sched IH]; intros tasks sh.
  - simpl. destruct (all_done tasks); simpl; lia.
  - destruct (all_done tasks) eqn:Hdone.
    + rewrite gather_all_done by exact Hdone. simpl. lia.
    + rewrite gather_step by exact Hdone. cbn [filter].
      destruct (nth (who tn) tasks false) eqn:Hrun.
      * apply nth_true_lt in Hrun. apply Nat.ltb_lt in Hrun. rewrite Hrun.
        destruct (_worker self end_time tn sh) as [exc | [sh1 |]] eqn:Hw.
        -- cbn [fst]. lia.
        -- apply worker_pass in Hw. destruct Hw as (Hlt & Ht & _).
           apply Qlt_bool_true in Hlt. rewrite Hlt. cbn [andb].
           specialize (IH tasks sh1).
           rewrite Ht, !requests_app, requests_sleep_of, !length_app in IH.
           simpl in IH |- *. lia.
        -- specialize (IH (finish (who tn) tasks) sh).
           rewrite finish_length in IH.
           destruct (true && Qlt_bool (now tn) end_time); simpl; lia.
      * specialize (IH tasks sh).
        destruct ((who tn <? List.length tasks)%nat
                  && Qlt_bool (now tn) end_time); simpl; lia.
Qed.

(** X5: a run sends at most one request for each turn at which a worker
    it created finds the deadline not reached.  (The deadline is tested
    at the head of the loop only: the request of such a pass is sent
    after the sleep of the pass, whenever that ends.) *)
Theorem run_requests_within_deadline (self : LoadGenerator.t)
    (w : RunWorld) :
  (List.length (requests (fst (LoadGenerator.run self w)))
   <= List.length (filter (before_deadline self w) (schedule w)))%nat.
Proof.
  unfold requests at 1. rewrite run_trace_filter by reflexivity.
  unfold gathered.
  pose proof (gather_requests_bound self
                (wall_start w + inject_Z (duration self)) (schedule w)
                (spawn self) (started self)) as H.
  rewrite started_requests in H. simpl in H.
  unfold spawn in H. rewrite repeat_length in H.
  exact H.
Qed.

(** ** The counts of a result *)

Lemma gather_invariant_in (P : Shared -> Prop) self end_time sched0 :
  (forall tn sh sh',
      In tn sched0 -> P sh ->
      _worker self end_time tn sh = inr (Some sh') -> P sh') ->
  forall sched, incl sched sched0 ->
  forall tasks sh sh' r,
    P sh -> gather self end_time sched tasks sh = (sh', r) -> P sh'.
Proof.
  intros Hstep sched.
  induction sched as [|tn sched IH]; intros Hincl tasks sh sh' r HP Hg.
  - simpl in Hg. destruct (all_done tasks); inversion Hg; subst; exact HP.
  - assert (Hin : In tn sched0) by (apply Hincl; left; reflexivity).
    assert (Hincl' : incl sched sched0).
    { intros x Hx. apply Hincl. right. exact Hx. }
    destruct (all_done tasks) eqn:Hdone.
    + rewrite gather_all_done in Hg by exact Hdone.
      inversion Hg; subst; exact HP.
    + rewrite gather_step in Hg by exact Hdone.
      destruct (nth (who tn) tasks false).
      * destruct (_worker self end_time tn sh) as [exc | [sh1 |]] eqn:Hw.
        -- inversion Hg; subst; exact HP.
        -- eapply IH; [exact Hincl' | | exact Hg]. eapply Hstep; eauto.
        -- eapply IH; eauto.
      * eapply IH; eauto.
Qed.

Lemma worker_pass_outcome self end_time tn sh sh' :
  (mono_start (attempt tn) <= mono_end (attempt tn))%Q ->
  _worker self end_time tn sh = inr (Some sh') ->
  trace sh' =
    (trace sh ++ sleep_of self (attempt tn)
       ++ [request_of self (attempt tn)])%list /\
  match transport (attempt tn) with
  | Responded _ _ =>
      List.length (results sh') = S (List.length (results sh)) /\
      List.length (errors sh') = List.length (errors sh)
  | Raised _ =>
      List.length (results sh') = List.length (results sh) /\
      List.length (errors sh') = S (List.length (errors sh))
  end.
Proof.
  intros Hmono. unfold _worker.
  destruct (Qlt_bool (now tn) end_time); [|discriminate].
  destruct (_send_request self (attempt tn) sh) as [sh1 r] eqn:Hsend.
  apply send_request_shape in Hsend.
  destruct Hsend as [(exc & -> & _) | (latency & -> & Hr & He & Ht & Hlat)];
    [discriminate|].
  destruct (transport (attempt tn)) as [status body | exc] eqn:Htr.
  - assert (Hpos : Qle_bool 0 latency = true).
    { apply Qle_bool_iff. subst latency. apply latency_nonneg. exact Hmono. }
    rewrite Hpos. intro H. inversion H; subst sh'; clear H.
    cbn [results errors trace].
    rewrite Hr, He, length_app. simpl. split; [exact Ht|]. split; lia.
  - subst latency. change (Qle_bool 0 (- (1))) with false.
    intro H. inversion H; subst sh'; clear H. simpl.
    rewrite Hr, He, length_app. simpl. split; [exact Ht|]. split; lia.
Qed.

Lemma filter_sleep_of (f : Effect -> bool) self a :
  (forall seconds, f (Sleep seconds) = false) ->
  filter f (sleep_of self a) = [].
Proof.
  intro Hf. unfold sleep_of.
  destruct (delay self (variate a)) as [? | [? |]]; simpl;
    try rewrite Hf; reflexivity.
Qed.

Lemma gathered_counts_by_outcome self w sh r :
  Forall (fun tn => (mono_start (attempt tn) <= mono_end (attempt tn))%Q)
         (schedule w) ->
  gathered self w = (sh, r) ->
  List.length (results sh) = List.length (filter is_responded (trace sh)) /\
  List.length (errors sh) = List.length (filter is_raised (trace sh)).
Proof.
  unfold gathered. intros Hmono Hg.
  rewrite Forall_forall in Hmono.
  eapply (gather_invariant_in
            (fun sh =>
               List.length (results sh)
               = List.length (filter is_responded (trace sh)) /\
               List.length (errors sh)
               = List.length (filter is_raised (trace sh)))
            self _ (schedule w));
    [| apply incl_refl | | exact Hg].
  - intros tn sh0 sh1 Hin [HPr HPe] Hw.
    apply worker_pass_outcome in Hw; [|apply Hmono; exact Hin].
    destruct Hw as [Ht Hlen]. rewrite Ht.
    rewrite !filter_app, !filter_sleep_of by reflexivity.
    rewrite !length_app. unfold request_of. simpl.
    destruct (transport (attempt tn)); simpl; lia.
  - unfold started. simpl.
    assert (H1 : filter is_responded
                   (repeat CreateTask (Z.to_nat (concurrency self))) = []).
    { induction (Z.to_nat (concurrency self)); simpl; auto. }
    assert (H2 : filter is_raised
                   (repeat CreateTask (Z.to_nat (concurrency self))) = []).
    { induction (Z.to_nat (concurrency self)); simpl; auto. }
    rewrite H1, H2. split; reflexivity.
Qed.

(** X6: when a run returns its metrics (on a monotonic clock that does
    not run backwards), the value under "Successful Requests" is the
    number of requests of the trace whose response was read, the value
    under "Total Errors" is the number of requests on which the transport
    raised, and the values under "Concurrency Level" and "Duration (s)"
    are the configured ones, not measured ones. *)
Theorem run_metrics_count_the_trace (self : LoadGenerator.t) (w : RunWorld)
    (tr : list Effect) (m : Dict) :
  Forall (fun tn => (mono_start (attempt tn) <= mono_end (attempt tn))%Q)
         (schedule w) ->
  LoadGenerator.run self w = (tr, Ok m) ->
  dict_get m "Successful Requests"
    = Some (PyInt (Z.of_nat (List.length (filter is_responded tr)))) /\
  dict_get m "Total Errors"
    = Some (PyInt (Z.of_nat (List.length (filter is_raised tr)))) /\
  dict_get m "Concurrency Level" = Some (PyInt (concurrency self)) /\
  dict_get m "Duration (s)" = Some (PyInt (duration self)).
Proof.
  intros Hmono Hrun.
  apply run_ok_inv in Hrun. destruct Hrun as (sh & Hg & -> & Hred).
  destruct (gathered_counts_by_outcome _ _ _ _ Hmono Hg) as [Hr He].
  apply reduce_ok_inv in Hred. destruct Hred as [_ ->].
  rewrite !filter_app. simpl. rewrite !app_nil_r.
  rewrite <- Hr, <- He.
  repeat split; reflexivity.
Qed.

Lemma run_metrics_count_the_trace_witness :
  dict_get
    (match snd (LoadGenerator.run gen2 world2) with Ok m => m | _ => [] end)
    "Successful Requests"
  = Some (PyInt 3).
Proof.
  destruct (run_metrics_count_the_trace gen2 world2
              (fst (LoadGenerator.run gen2 world2))
              (match snd (LoadGenerator.run gen2 world2) with
               | Ok m => m
               | _ => []
               end)) as [H _].
  - repeat constructor; vm_compute; discriminate.
  - vm_compute; reflexivity.
  - exact H.
Defined.

(** ** The length of a sleep *)

(** X16: in the uniform mode, with an average jitter that is not
    negative and variates of the generator in the unit interval, every
    sleep of a run lasts between 0 and twice the average jitter in
    seconds. *)
Theorem uniform_run_sleeps_are_bounded (self : LoadGenerator.t)
    (w : RunWorld) :
  mode self = "uniform" -> (0 <= avg_jitter self)%Q ->
  Forall (fun tn => (0 <= variate (attempt tn) <= 1)%Q) (schedule w) ->
  sleeps_within 0 (2 * avg_jitter self) (fst (LoadGenerator.run self w)).
Proof.
  intros Hm Hj Hvar. unfold sleeps_within.
  assert (Hg : Forall (fun e => match e with
                                | Sleep seconds =>
                                    (0 <= seconds <= 2 * avg_jitter self)%Q
                                | _ => True
                                end) (trace (fst (gathered self w)))).
  { destruct (gathered self w) as [sh r] eqn:Hgath. cbn [fst].
    unfold gathered in Hgath. rewrite Forall_forall in Hvar.
    eapply (gather_invariant_in
              (fun sh => Forall (fun e => match e with
                                          | Sleep seconds =>
                                              (0 <= seconds
                                               <= 2 * avg_jitter self)%Q
                                          | _ => True
                                          end) (trace sh))
              self _ (schedule w)); [| apply incl_refl | | exact Hgath].
    - intros tn sh0 sh1 Hin HP Hw. apply worker_pass in Hw.
      destruct Hw as (_ & Ht & _). rewrite Ht.
      apply Forall_app. split; [exact HP|].
      apply Forall_app. split; [|repeat constructor].
      unfold sleep_of. rewrite (delay_uniform _ _ Hm).
      constructor; [|constructor].
      destruct (Hvar tn Hin) as [H0 H1].
      unfold numpy_random_uniform. split; nra.
    - unfold started. simpl. constructor; [exact I|].
      induction (Z.to_nat (concurrency self)); simpl; constructor; auto. }
  unfold LoadGenerator.run.
  destruct (gathered self w) as [sh [[] | exc |]]; cbn [fst] in *;
    try exact Hg; apply Forall_app; split; try exact Hg;
    repeat constructor.
Qed.

Lemma uniform_run_sleeps_are_bounded_witness :
  sleeps_within 0 (2 * avg_jitter gen2) (fst (LoadGenerator.run gen2 world2)).
Proof.
  apply (uniform_run_sleeps_are_bounded gen2 world2).
  - reflexivity.
  - vm_compute; discriminate.
  - repeat constructor; vm_compute; discriminate.
Defined.

(** * Further properties of the benchmark *)

(** ** What every request of a benchmark carries *)

Lemma upper_ascii_idempotent c : upper_ascii (upper_ascii c) = upper_ascii c.
Proof.
  destruct c as [[] [] [] [] [] [] [] []]; reflexivity.
Qed.

Lemma upper_idempotent s : upper (upper s) = upper s.
Proof.
  induction s as [|c s IH]; simpl; [reflexivity|].
  rewrite upper_ascii_idempotent, IH. reflexivity.
Qed.

Lemma run_requests_carry self w :
  Forall (fun e => exists outcome,
            e = Request (request_type self) (url self) (data self) outcome)
         (requests (fst (LoadGenerator.run self w))).
Proof.
  unfold requests. rewrite run_trace_filter by reflexivity.
  destruct (gathered self w) as [sh r] eqn:Hg.
  exact (run_requests_verbatim _ _ _ _ Hg).
Qed.

Lemma run_tests_from_requests (P : Effect -> Prop) self levels :
  (forall c w, Forall P (requests (fst (LoadGenerator.run
                                          (HTTPBenchmark.generator self c) w)))) ->
  forall worlds acc,
    Forall P (requests (fst (HTTPBenchmark.run_tests_from self levels worlds acc))).
Proof.
  intro Hrun. induction levels as [|c levels IH]; intros worlds acc; simpl.
  - constructor.
  - destruct worlds as [|w worlds]; [constructor|].
    specialize (Hrun c w).
    destruct (LoadGenerator.run (HTTPBenchmark.generator self c) w)
      as [tr [m | exc |]]; cbn [fst] in *; try exact Hrun.
    specialize (IH worlds (acc ++ [m])%list).
    destruct (HTTPBenchmark.run_tests_from self levels worlds (acc ++ [m])%list)
      as [tr' r].
    cbn [fst] in *. rewrite requests_app. apply Forall_app. split; assumption.
Qed.

Lemma benchmark_requests_carry (self : HTTPBenchmark.t)
    (worlds : list RunWorld) :
  Forall (fun e => exists outcome,
            e = Request (upper (HTTPBenchmark.request_type self))
                  (HTTPBenchmark.url self) (HTTPBenchmark.data self) outcome)
         (requests (fst (HTTPBenchmark.run self worlds))).
Proof.
  unfold HTTPBenchmark.run, HTTPBenchmark.run_tests.
  apply run_tests_from_requests. intros c w.
  exact (run_requests_carry (HTTPBenchmark.generator self c) w).
Qed.

(** X7: for a request type that is ASCII text, every request of a
    benchmark, at every level, is sent with the request type in upper
    case, the url and the data that the benchmark was built with; "post"
    is sent as "POST". *)
Theorem benchmark_requests_verbatim
    (url : string) (duration : Z) (levels : list Z) (request_type : string)
    (h : Headers) (d : Data) (mode : string) (jitter : Z)
    (worlds : list RunWorld) :
  ascii_text request_type = true ->
  Forall (fun e => exists outcome,
            e = Request (upper request_type) url d outcome)
         (requests
            (fst (HTTPBenchmark.run
                    (HTTPBenchmark.__init__ url duration levels request_type
                       h d mode jitter) worlds))).
Proof.
  intros _.
  pose proof (benchmark_requests_carry
                (HTTPBenchmark.__init__ url duration levels request_type
                   h d mode jitter) worlds) as H.
  cbn [HTTPBenchmark.request_type HTTPBenchmark.url HTTPBenchmark.data
       HTTPBenchmark.__init__] in H.
  rewrite upper_idempotent in H.
  exact H.
Qed.

Lemma benchmark_requests_verbatim_witness :
  Forall (fun e => exists outcome,
            e = Request "POST" "http://example.com" (DataStr "x") outcome)
         (requests
            (fst (HTTPBenchmark.run
                    (HTTPBenchmark.__init__ "http://example.com" 3 [2; 1]
                       "post" None (DataStr "x") "burst" 10)
                    [world2; world1]))).
Proof.
  apply (benchmark_requests_verbatim "http://example.com" 3 [2; 1] "post"
           None (DataStr "x") "burst" 10 [world2; world1]).
  reflexivity.
Defined.

(** ** An exception in one run *)

Lemma run_tests_from_raise self levels1 worlds1 runs1 :
  runs_in_order self levels1 worlds1 runs1 ->
  List.length worlds1 = List.length levels1 ->
  forall c levels2 w worlds2 trc exc acc,
    LoadGenerator.run (HTTPBenchmark.generator self c) w = (trc, Raise exc) ->
    HTTPBenchmark.run_tests_from self (levels1 ++ c :: levels2)%list
      (worlds1 ++ w :: worlds2)%list acc
    = ((List.concat (map fst runs1) ++ trc)%list, Raise exc).
Proof.
  induction 1 as [worlds1 | c1 levels1 w1 worlds1 tr1 m1 runs1 Hrun1 _ IH];
    intros Hlen c levels2 w worlds2 trc exc acc Hrun.
  - destruct worlds1; [|discriminate]. simpl. rewrite Hrun. reflexivity.
  - simpl in Hlen. simpl. rewrite Hrun1.
    rewrite (IH ltac:(lia) c levels2 w worlds2 trc exc (acc ++ [m1])%list Hrun).
    rewrite <- app_assoc. reflexivity.
Qed.

(** X8: when the run of one level raises, the benchmark raises the same
    exception: the rows of the levels before it are not returned, and the
    levels after it are not run (the trace ends with the trace of the
    run that raised). *)
Theorem benchmark_stops_at_first_exception (self : HTTPBenchmark.t)
    (levels1 levels2 : list Z) (c : Z) (worlds1 worlds2 : list RunWorld)
    (w : RunWorld) (runs1 : list (list Effect * Dict)) (trc : list Effect)
    (exc : PyExc) :
  HTTPBenchmark.concurrency_levels self = (levels1 ++ c :: levels2)%list ->
  List.length worlds1 = List.length levels1 ->
  runs_in_order self levels1 worlds1 runs1 ->
  LoadGenerator.run (HTTPBenchmark.generator self c) w = (trc, Raise exc) ->
  HTTPBenchmark.run self (worlds1 ++ w :: worlds2)%list
  = ((List.concat (map fst runs1) ++ trc)%list, Raise exc).
Proof.
  intros Hlevels Hlen Hruns Hrun.
  unfold HTTPBenchmark.run, HTTPBenchmark.run_tests. rewrite Hlevels.
  eapply run_tests_from_raise; eassumption.
Qed.

Lemma benchmark_stops_at_first_exception_witness :
  snd (HTTPBenchmark.run bench_bad_level [world2; world1])
  = Raise ZeroDivisionError.
Proof.
  refine (f_equal snd
            (benchmark_stops_at_first_exception bench_bad_level [2] [] 0
               [world2] [] world1
               [(fst (LoadGenerator.run
                        (HTTPBenchmark.generator bench_bad_level 2) world2),
                 match snd (LoadGenerator.run
                              (HTTPBenchmark.generator bench_bad_level 2)
                              world2)
                 with
                 | Ok m => m
                 | _ => []
                 end)]
               [OpenSession None; CloseSession] ZeroDivisionError _ _ _ _)).
  - reflexivity.
  - reflexivity.
  - econstructor; [vm_compute; reflexivity | constructor].
  - vm_compute; reflexivity.
Defined.

(** * Further properties of the percentiles *)

(** ** Between the smallest and the largest sample *)

(** Each percentile of a sample that is not empty lies between any lower
    bound and any upper bound of the sample. *)
Lemma np_percentile_between (a : list Q) (p : Z) (lo hi : Q) :
  a <> [] -> 0 <= p <= 100 ->
  Forall (fun x => (lo <= x <= hi)%Q) a ->
  (lo <= np_percentile a p <= hi)%Q.
Proof.
  intros Hne [Hp0 Hp1] Hall. unfold np_percentile.
  assert (Hlen : (0 < List.length (sort a))%nat).
  { rewrite sort_length. destruct a; [congruence | simpl; lia]. }
  set (s := sort a) in *.
  set (n := Z.of_nat (List.length s)).
  set (v := (inject_Z (n - 1) * (inject_Z p / 100))%Q).
  assert (Hn : (0 <= inject_Z (n - 1))%Q) by (apply inject_Z_nonneg; lia).
  assert (Hp' : (0 <= inject_Z p)%Q) by (apply inject_Z_nonneg; lia).
  assert (Hq' : (inject_Z p <= 100)%Q).
  { change 100%Q with (inject_Z 100). rewrite <- Zle_Qle. lia. }
  assert (Hdp : (0 <= inject_Z p / 100)%Q).
  { apply Qle_shift_div_l; [reflexivity | lra]. }
  assert (Hdq : (inject_Z p / 100 <= 1)%Q).
  { apply Qle_shift_div_r; [reflexivity | lra]. }
  assert (Hv : (0 <= v)%Q) by (unfold v; nra).
  assert (Hvn : (v <= inject_Z (n - 1))%Q) by (unfold v; nra).
  assert (Hiv : 0 <= Qfloor v <= n - 1) by (apply Qfloor_range; assumption).
  unfold lerp_at. fold n.
  assert (Hsorted : (nth (Z.to_nat (Qfloor v)) s 0
                     <= nth (Z.to_nat (Z.min (Qfloor v + 1) (n - 1))) s 0)%Q).
  { apply sorted_nth; [apply sort_sorted | lia | lia]. }
  pose proof (lerp_bounds _ _ _ Hsorted (Qfloor_frac v)) as [Hlow Hup].
  assert (Hs : Forall (fun x => (lo <= x <= hi)%Q) s)
    by (apply sort_Forall; exact Hall).
  rewrite Forall_forall in Hs.
  assert (H1 : (lo <= nth (Z.to_nat (Qfloor v)) s 0 <= hi)%Q).
  { apply Hs. apply nth_In. lia. }
  assert (H2 : (lo <= nth (Z.to_nat (Z.min (Qfloor v + 1) (n - 1))) s 0
                <= hi)%Q).
  { apply Hs. apply nth_In. lia. }
  split.
  - eapply Qle_trans; [apply H1 | exact Hlow].
  - eapply Qle_trans; [exact Hup | apply H2].
Qed.

Lemma percentiles_in_range p : In p percentiles -> 0 <= p <= 100.
Proof.
  unfold percentiles. simpl.
  intros [<- | [<- | [<- | [<- | []]]]]; lia.
Qed.

(** X9: in the result of a run, each percentile field is the print of a
    value that lies between any lower bound and any upper bound of the
    latencies; when the latencies are all equal, as with a single
    successful request, the four fields are the print of that latency. *)
Theorem percentile_fields_between (self : LoadGenerator.t)
    (latencies : list Q) (errors : list Z) (m : Dict) :
  reduce self latencies errors = Ok m ->
  latencies <> [] ->
  (forall lo hi,
      Forall (fun x => (lo <= x <= hi)%Q) latencies ->
      forall p, In p percentiles ->
        exists x, (lo <= x <= hi)%Q /\
                  dict_get m (percentile_key p) = Some (PyStr (format_2f x)))
  /\
  (forall c,
      Forall (fun x => (x == c)%Q) latencies ->
      forall p, In p percentiles ->
        dict_get m (percentile_key p) = Some (PyStr (format_2f c))).
Proof.
  intros Hm Hne.
  apply reduce_ok_inv in Hm. destruct Hm as [_ ->].
  assert (Hget : forall p, In p percentiles ->
            dict_get (base_metrics self latencies errors
                        ++ match latencies with
                           | [] => []
                           | _ :: _ => latency_metrics latencies
                           end)%list (percentile_key p)
            = Some (PyStr (format_2f (np_percentile latencies p)))).
  { intros p Hp. destruct latencies as [|x rs] eqn:E; [congruence|].
    apply latency_key_present; [exact Hp | discriminate]. }
  split.
  - intros lo hi Hall p Hp.
    exists (np_percentile latencies p). split; [|apply Hget; exact Hp].
    apply np_percentile_between;
      [exact Hne | apply percentiles_in_range; exact Hp | exact Hall].
  - intros c Hall p Hp. rewrite (Hget p Hp).
    assert (Hb : (c <= np_percentile latencies p <= c)%Q).
    { apply np_percentile_between;
        [exact Hne | apply percentiles_in_range; exact Hp |].
      eapply Forall_impl; [|exact Hall].
      intros x Hx. simpl in Hx. rewrite Hx. split; apply Qle_refl. }
    assert (Heq : (np_percentile latencies p == c)%Q)
      by (apply Qle_antisym; apply Hb).
    rewrite (format_2f_comp _ _ Heq). reflexivity.
Qed.

Lemma percentile_fields_between_witness :
  dict_get
    (match reduce gen2 [5]%Q [1] with Ok m => m | _ => [] end)
    (percentile_key 99)
  = Some (PyStr "5.00").
Proof.
  destruct (percentile_fields_between gen2 [5]%Q [1]
              (match reduce gen2 [5]%Q [1] with Ok m => m | _ => [] end))
    as [_ H].
  - vm_compute; reflexivity.
  - discriminate.
  - apply (H 5%Q).
    + repeat constructor.
    + right. right. right. left. reflexivity.
Defined.

(** ** The order of the samples *)

Lemma Forall2_Qeq_refl (l : list Q) : Forall2 Qeq l l.
Proof. induction l; constructor; [reflexivity | assumption]. Qed.

Lemma Forall2_Qeq_trans (l1 l2 l3 : list Q) :
  Forall2 Qeq l1 l2 -> Forall2 Qeq l2 l3 -> Forall2 Qeq l1 l3.
Proof.
  intro H. revert l3. induction H as [|x y l1 l2 Hxy _ IH]; intros l3 H23.
  - inversion H23. constructor.
  - inversion H23; subst. constructor.
    + eapply Qeq_trans; eassumption.
    + apply IH. assumption.
Qed.

Ltac q_facts :=
  repeat match goal with
         | H : Qle_bool _ _ = true |- _ => apply Qle_bool_iff in H
         | H : Qle_bool _ _ = false |- _ => apply Qle_bool_false in H
         end.

Ltac q_branches :=
  repeat match goal with
         | |- context [Qle_bool ?a ?b] => destruct (Qle_bool a b) eqn:?; simpl
         end.

Lemma insert_sorted_Forall2 x y l l' :
  (x == y)%Q -> Forall2 Qeq l l' ->
  Forall2 Qeq (insert_sorted x l) (insert_sorted y l').
Proof.
  intros Hxy H. induction H as [|a b l l' Hab Hl IH]; simpl.
  - constructor; [exact Hxy | constructor].
  - q_branches; q_facts; try (exfalso; lra).
    + constructor; [exact Hxy|]. constructor; assumption.
    + constructor; [exact Hab | exact IH].
Qed.

Lemma insert_sorted_comm x y l :
  Forall2 Qeq (insert_sorted x (insert_sorted y l))
              (insert_sorted y (insert_sorted x l)).
Proof.
  induction l as [|z l IH]; simpl.
  - q_branches; q_facts; try (exfalso; lra);
      repeat (constructor; [lra|]); constructor.
  - q_branches; q_facts; try (exfalso; lra);
      repeat (constructor; [lra|]);
      first [apply Forall2_Qeq_refl | exact IH].
Qed.

Lemma sort_Permutation l l' :
  Permutation l l' -> Forall2 Qeq (sort l) (sort l').
Proof.
  induction 1 as [| x l l' _ IH | x y l | l1 l2 l3 _ IH1 _ IH2]; simpl.
  - constructor.
  - apply insert_sorted_Forall2; [reflexivity | exact IH].
  - apply insert_sorted_comm.
  - eapply Forall2_Qeq_trans; eassumption.
Qed.

Lemma nth_Forall2_Qeq (s s' : list Q) :
  Forall2 Qeq s s' -> forall i, (nth i s 0 == nth i s' 0)%Q.
Proof.
  induction 1 as [|x y s s' Hxy _ IH]; intros [|i]; simpl;
    try reflexivity; auto.
Qed.

Lemma lerp_at_Forall2 (s s' : list Q) (v : Q) :
  Forall2 Qeq s s' -> (lerp_at s v == lerp_at s' v)%Q.
Proof.
  intro H. unfold lerp_at.
  rewrite <- (Forall2_length H).
  rewrite (nth_Forall2_Qeq s s' H (Z.to_nat (Qfloor v))).
  rewrite (nth_Forall2_Qeq s s' H
             (Z.to_nat (Z.min (Qfloor v + 1)
                          (Z.of_nat (List.length s) - 1)))).
  reflexivity.
Qed.

Lemma np_percentile_Permutation a a' p :
  Permutation a a' -> (np_percentile a p == np_percentile a' p)%Q.
Proof.
  intro H. unfold np_percentile.
  rewrite !sort_length, <- (Permutation_length H).
  apply lerp_at_Forall2. apply sort_Permutation. exact H.
Qed.

(** X10: the metrics do not depend on the order in which the samples of
    the workers arrive: latencies in another order, with as many error
    markers, give the same dict (and the same exception when there is no
    sample at all). *)
Theorem reduce_order_independent (self : LoadGenerator.t)
    (results results' : list Q) (errors errors' : list Z) :
  Permutation results results' ->
  List.length errors = List.length errors' ->
  reduce self results errors = reduce self results' errors'.
Proof.
  intros Hperm Hlen. rewrite !reduce_eq.
  rewrite <- (Permutation_length Hperm), <- Hlen.
  destruct (Z.of_nat (List.length results) + Z.of_nat (List.length errors)
            =? 0); [reflexivity|].
  f_equal. f_equal.
  - unfold base_metrics.
    rewrite <- (Permutation_length Hperm), <- Hlen. reflexivity.
  - destruct results as [|x rs], results' as [|x' rs']; try reflexivity.
    + apply Permutation_nil in Hperm. discriminate.
    + apply Permutation_sym, Permutation_nil in Hperm. discriminate.
    + unfold latency_metrics. apply map_ext. intro p.
      rewrite (format_2f_comp _ _ (np_percentile_Permutation _ _ p Hperm)).
      reflexivity.
Qed.

Lemma reduce_order_independent_witness :
  reduce gen2 [7; 12; 3]%Q [1] = reduce gen2 [3; 7; 12]%Q [1].
Proof.
  apply (reduce_order_independent gen2).
  - apply Permutation_sym.
    apply (perm_trans (l' := [7; 3; 12]%Q)).
    + apply perm_swap.
    + apply perm_skip. apply perm_swap.
  - reflexivity.
Defined.

(** * Properties of the command line *)

(** ** Splitting a header at its first colon *)

Lemma split_colon_none s : split_colon s = None <-> ~ has_colon s.
Proof.
  unfold has_colon. induction s as [|c s IH]; simpl.
  - split; [intros _ [] | reflexivity].
  - destruct (Ascii.eqb_spec c ":") as [-> | Hc].
    + split; [discriminate | intro H; exfalso; apply H; left; reflexivity].
    + destruct (split_colon s) as [[key value] |].
      * split; [discriminate|]. intro H. exfalso.
        destruct IH as [_ IH].
        assert (Hs : ~ In ":"%char (list_ascii_of_string s))
          by (intro Hin; apply H; right; exact Hin).
        specialize (IH Hs). discriminate.
      * split; [|reflexivity]. intros _ [Heq | Hin]; [congruence|].
        destruct IH as [IH _]. exact (IH eq_refl Hin).
Qed.

(** The split of a header is at its first colon: a header splits into a
    name and a value exactly when it is the name, a colon and the value,
    with no colon in the name; the value may hold colons. *)
Lemma split_colon_first (s key value : string) :
  split_colon s = Some (key, value)
  <-> s = key ++ ":" ++ value /\ ~ has_colon key.
Proof.
  unfold has_colon. revert key. induction s as [|c s IH]; intro key; simpl.
  - split; [discriminate|]. intros [H _]. destruct key; discriminate.
  - destruct (Ascii.eqb_spec c ":") as [-> | Hc].
    + split.
      * intro H. inversion H; subst. split; [reflexivity | intros []].
      * intros [H Hno]. destruct key as [|k key].
        -- simpl in H. inversion H; subst. reflexivity.
        -- simpl in H. inversion H; subst. exfalso. apply Hno. left.
           reflexivity.
    + split.
      * destruct (split_colon s) as [[key' value'] |] eqn:Hs; [|discriminate].
        intro H. inversion H; subst. destruct (IH key') as [IH' _].
        destruct (IH' eq_refl) as [-> Hno].
        split; [reflexivity|]. simpl. intros [Heq | Hin]; [congruence|].
        exact (Hno Hin).
      * intros [H Hno]. destruct key as [|k key].
        -- simpl in H. inversion H; subst. congruence.
        -- simpl in H. inversion H; subst.
           destruct (IH key) as [_ IH'].
           rewrite IH'; [reflexivity|].
           split; [reflexivity|]. intro Hin. apply Hno. right. exact Hin.
Qed.

(** ** Headers that cannot be split *)

Lemma process_headers_from_ok hs :
  forall acc,
    (exists d, FireBenchMain.process_headers_from hs acc = inr d)
    <-> Forall has_colon hs.
Proof.
  induction hs as [|h hs IH]; intro acc; simpl.
  - split; [constructor | eexists; reflexivity].
  - destruct (split_colon h) as [[key value] |] eqn:Hs.
    + rewrite IH. split.
      * intro H. constructor; [|exact H].
        destruct (split_colon_none h) as [_ Hn].
        destruct (in_dec ascii_dec ":"%char (list_ascii_of_string h))
          as [Hin | Hnin]; [exact Hin|].
        rewrite (Hn Hnin) in Hs. discriminate.
      * intro H. inversion H; assumption.
    + split.
      * intros [d Hd]. discriminate.
      * intro H. inversion H; subst. apply split_colon_none in Hs.
        contradiction.
Qed.

Lemma process_headers_from_error hs :
  forall acc exc,
    FireBenchMain.process_headers_from hs acc = inl exc ->
    exc = ValueError "not enough values to unpack (expected 2, got 1)".
Proof.
  induction hs as [|h hs IH]; intros acc exc; simpl; [discriminate|].
  destruct (split_colon h) as [[key value] |].
  - apply IH.
  - intro H. inversion H. reflexivity.
Qed.

(** X11: the headers are accepted exactly when every header string has a
    colon.  One header string without a colon makes [_main] raise
    [ValueError] from the unpacking, whatever the other arguments, before
    the data is looked at and before any run starts. *)
Theorem headers_need_a_colon (fs : FireBench.FileSystem) (hs : list string)
    (args : FireBench.Args) (worlds : list RunWorld) :
  ((exists d, FireBenchMain.process_headers (Some hs) = inr d)
   <-> Forall has_colon hs) /\
  (~ Forall has_colon hs ->
   FireBenchMain._main fs (Some hs) args worlds
   = ([], Raise (ValueError
                   "not enough values to unpack (expected 2, got 1)"))).
Proof.
  split; [apply process_headers_from_ok|].
  intro Hbad. unfold FireBenchMain._main, FireBenchMain.process_headers.
  destruct (FireBenchMain.process_headers_from hs []) as [exc | d] eqn:Hp.
  - rewrite (process_headers_from_error _ _ _ Hp). reflexivity.
  - exfalso. apply Hbad. apply (process_headers_from_ok hs []).
    exists d. exact Hp.
Qed.

Lemma headers_need_a_colon_witness :
  FireBenchMain._main
    no_files
    (Some ["Accept: text/html"; "X-Broken"])
    {| FireBench.url := "http://example.com"; FireBench.duration := 10;
       FireBench.concurrency_levels := [1]; FireBench.request_type := "GET";
       FireBench.mode := "burst"; FireBench.avg_jitter := 10;
       FireBench.data := Some "x"; FireBench.data_binary := None;
       FireBench.header := [] |}
    [world1]
  = ([], Raise (ValueError "not enough values to unpack (expected 2, got 1)")).
Proof.
  apply headers_need_a_colon.
  intro H. inversion H as [|h hs _ H2]; subst.
  inversion H2 as [|h' hs' Hbroken _]; subst.
  unfold has_colon in Hbroken. simpl in Hbroken.
  repeat (destruct Hbroken as [Hbroken | Hbroken]; [discriminate|]).
  exact Hbroken.
Defined.

(** ** The dict of headers *)

Lemma strdict_get_set d k v k' :
  strdict_get (strdict_set d k v) k'
  = if String.eqb k k' then Some v else strdict_get d k'.
Proof.
  induction d as [|[k0 v0] d IH]; simpl.
  - reflexivity.
  - destruct (String.eqb_spec k0 k) as [-> | Hk0]; simpl.
    + destruct (String.eqb k k'); reflexivity.
    + rewrite IH. destruct (String.eqb_spec k0 k') as [-> | Hk0'].
      * destruct (String.eqb_spec k k'); [congruence | reflexivity].
      * reflexivity.
Qed.

Lemma strdict_set_keys d k v :
  map fst (strdict_set d k v)
  = if in_dec string_dec k (map fst d) then map fst d
    else (map fst d ++ [k])%list.
Proof.
  induction d as [|[k0 v0] d IH]; simpl.
  - reflexivity.
  - destruct (String.eqb_spec k0 k) as [-> | Hk0]; simpl.
    + destruct (string_dec k k); [|congruence].
      reflexivity.
    + rewrite IH. destruct (string_dec k0 k); [congruence|].
      destruct (in_dec string_dec k (map fst d)); reflexivity.
Qed.

Lemma strdict_set_NoDup d k v :
  NoDup (map fst d) -> NoDup (map fst (strdict_set d k v)).
Proof.
  intro H. rewrite strdict_set_keys.
  destruct (in_dec string_dec k (map fst d)) as [Hin | Hnin]; [exact H|].
  apply NoDup_app; [exact H | repeat constructor; intros [] |].
  intros x Hx [<- | []]. exact (Hnin Hx).
Qed.

Lemma process_headers_from_other hs k :
  Forall (other_name k) hs ->
  forall acc d,
    FireBenchMain.process_headers_from hs acc = inr d ->
    strdict_get d k = strdict_get acc k.
Proof.
  induction 1 as [|h hs Hh _ IH]; intros acc d; simpl.
  - intro H. inversion H. reflexivity.
  - destruct (split_colon h) as [[key value] |] eqn:Hs; [|discriminate].
    intro H. rewrite (IH _ _ H), strdict_get_set.
    specialize (Hh key value Hs).
    apply String.eqb_neq in Hh. rewrite Hh. reflexivity.
Qed.

Lemma process_headers_from_app hs1 hs2 :
  forall acc d,
    FireBenchMain.process_headers_from (hs1 ++ hs2)%list acc = inr d ->
    exists acc1,
      FireBenchMain.process_headers_from hs1 acc = inr acc1 /\
      FireBenchMain.process_headers_from hs2 acc1 = inr d.
Proof.
  induction hs1 as [|h hs1 IH]; intros acc d; simpl.
  - intro H. exists acc. auto.
  - destruct (split_colon h) as [[key value] |]; [|discriminate].
    apply IH.
Qed.

Lemma process_headers_from_NoDup hs :
  forall acc d,
    NoDup (map fst acc) ->
    FireBenchMain.process_headers_from hs acc = inr d ->
    NoDup (map fst d).
Proof.
  induction hs as [|h hs IH]; intros acc d Hacc; simpl.
  - intro H. inversion H; subst. exact Hacc.
  - destruct (split_colon h) as [[key value] |]; [|discriminate].
    apply IH. apply strdict_set_NoDup. exact Hacc.
Qed.

(** X12: for header strings that are ASCII text, in the dict of headers
    every name occurs once, and a name that is given several times keeps
    the value of the last header string that sets it (names are compared
    after the white space around them is removed, and as they are
    written: the case matters). *)
Theorem last_header_wins (hs1 hs2 : list string) (h key value : string)
    (d : StrDict) :
  Forall (fun header => ascii_text header = true) (hs1 ++ h :: hs2)%list ->
  FireBenchMain.process_headers (Some (hs1 ++ h :: hs2)%list) = inr d ->
  split_colon h = Some (key, value) ->
  Forall (other_name (strip key)) hs2 ->
  strdict_get d (strip key) = Some (strip value) /\ NoDup (map fst d).
Proof.
  unfold FireBenchMain.process_headers. intros _ Hd Hs Hother. split.
  - apply process_headers_from_app in Hd. destruct Hd as (acc1 & _ & Hd).
    simpl in Hd. rewrite Hs in Hd.
    rewrite (process_headers_from_other _ _ Hother _ _ Hd), strdict_get_set.
    rewrite String.eqb_refl. reflexivity.
  - eapply process_headers_from_NoDup; [|exact Hd]. constructor.
Qed.

Lemma last_header_wins_witness :
  strdict_get
    (match FireBenchMain.process_headers
             (Some ["Accept: text/html"; "X-Id: 1"; " Accept :*/*"]) with
     | inr d => d
     | inl _ => []
     end) "Accept"
  = Some "*/*".
Proof.
  apply (last_header_wins ["Accept: text/html"; "X-Id: 1"] [] " Accept :*/*"
           " Accept " "*/*"
           (match FireBenchMain.process_headers
                    (Some ["Accept: text/html"; "X-Id: 1"; " Accept :*/*"])
            with
            | inr d => d
            | inl _ => []
            end)).
  - repeat constructor.
  - vm_compute; reflexivity.
  - reflexivity.
  - constructor.
Defined.

(** ** White space around a header *)

Lemma append_assoc (a b c : string) : (a ++ b) ++ c = a ++ (b ++ c).
Proof. induction a as [|x a IH]; simpl; [reflexivity | rewrite IH; reflexivity]. Qed.

Lemma lstrip_spaces l t : all_space l = true -> lstrip (l ++ t) = lstrip t.
Proof.
  unfold all_space. induction l as [|c l IH]; simpl; [reflexivity|].
  intro H. apply andb_prop in H. destruct H as [Hc Hl].
  rewrite Hc. apply IH. exact Hl.
Qed.

Lemma lstrip_all_space r : all_space r = true -> lstrip r = "".
Proof.
  unfold all_space. induction r as [|c r IH]; simpl; [reflexivity|].
  intro H. apply andb_prop in H. destruct H as [Hc Hr].
  rewrite Hc. apply IH. exact Hr.
Qed.

Lemma rstrip_all_space r : all_space r = true -> rstrip r = "".
Proof.
  unfold all_space. induction r as [|c r IH]; simpl; [reflexivity|].
  intro H. apply andb_prop in H. destruct H as [Hc Hr].
  rewrite (IH Hr), Hc. reflexivity.
Qed.

Lemma last_cons {A} (x d : A) (l : list A) : last (x :: l) d = last l x.
Proof.
  revert x d. induction l as [|y l IH]; intros x d; [reflexivity|].
  change (last (x :: y :: l) d) with (last (y :: l) d).
  rewrite (IH y d), (IH y x). reflexivity.
Qed.

Lemma rstrip_append_spaces c cs r :
  is_space (last (list_ascii_of_string cs) c) = false ->
  all_space r = true ->
  rstrip (String c cs ++ r) = String c cs.
Proof.
  revert c. induction cs as [|c' cs IH]; intros c H Hr.
  - simpl in *. rewrite (rstrip_all_space r Hr), H. reflexivity.
  - change (list_ascii_of_string (String c' cs))
      with (c' :: list_ascii_of_string cs) in H.
    rewrite last_cons in H.
    specialize (IH c' H Hr). simpl in IH |- *. rewrite IH. reflexivity.
Qed.

(** White space around a text that has none at its ends is removed, and
    nothing else. *)
Lemma strip_padded l t r :
  all_space l = true -> all_space r = true -> no_outer_space t = true ->
  strip (l ++ t ++ r) = t.
Proof.
  intros Hl Hr Ht. unfold strip. rewrite (lstrip_spaces l _ Hl).
  destruct t as [|c cs].
  - simpl. rewrite (lstrip_all_space r Hr). reflexivity.
  - unfold no_outer_space in Ht. simpl in Ht.
    apply andb_prop in Ht. destruct Ht as [Hc Hlast].
    apply negb_true_iff in Hc. apply negb_true_iff in Hlast.
    simpl. rewrite Hc.
    apply (rstrip_append_spaces c cs r Hlast Hr).
Qed.

Lemma has_colon_app a b : has_colon (a ++ b) <-> has_colon a \/ has_colon b.
Proof.
  unfold has_colon. induction a as [|c a IH]; simpl.
  - tauto.
  - rewrite IH. tauto.
Qed.

Lemma all_space_no_colon l : all_space l = true -> ~ has_colon l.
Proof.
  unfold all_space, has_colon. induction l as [|c l IH]; simpl.
  - intros _ [].
  - intro H. apply andb_prop in H. destruct H as [Hc Hl].
    intros [Heq | Hin]; [|exact (IH Hl Hin)].
    subst c. vm_compute in Hc. discriminate Hc.
Qed.

(** X13: a header of ASCII text written as a name, a colon and a value,
    with any ASCII white space around the name and around the value, is
    read as that name and that value: when the name has no colon and
    neither has white space at its ends, the dict of that one header maps
    the name to the value. *)
Theorem header_round_trip (l1 name r1 l2 value r2 : string) :
  ascii_text name = true -> ascii_text value = true ->
  all_space l1 = true -> all_space r1 = true ->
  all_space l2 = true -> all_space r2 = true ->
  no_outer_space name = true -> no_outer_space value = true ->
  ~ has_colon name ->
  FireBenchMain.process_headers
    (Some [(l1 ++ name ++ r1) ++ ":" ++ (l2 ++ value ++ r2)])
  = inr [(name, value)].
Proof.
  intros _ _ Hl1 Hr1 Hl2 Hr2 Hn Hv Hcolon.
  unfold FireBenchMain.process_headers.
  cbn [FireBenchMain.process_headers_from].
  assert (Hs : split_colon ((l1 ++ name ++ r1) ++ ":" ++ (l2 ++ value ++ r2))
               = Some (l1 ++ name ++ r1, l2 ++ value ++ r2)).
  { apply split_colon_first. split; [reflexivity|].
    rewrite !has_colon_app. intros [H | [H | H]].
    - exact (all_space_no_colon _ Hl1 H).
    - exact (Hcolon H).
    - exact (all_space_no_colon _ Hr1 H). }
  rewrite Hs.
  rewrite (strip_padded l1 name r1 Hl1 Hr1 Hn).
  rewrite (strip_padded l2 value r2 Hl2 Hr2 Hv).
  reflexivity.
Qed.

Lemma header_round_trip_witness :
  FireBenchMain.process_headers
    (Some [(" " ++ "Authorization" ++ "") ++ ":"
             ++ ("  " ++ "Bearer a:b" ++ " ")])
  = inr [("Authorization", "Bearer a:b")].
Proof.
  apply (header_round_trip " " "Authorization" "" "  " "Bearer a:b" " ");
    try reflexivity.
  unfold has_colon. simpl.
  intro H. repeat (destruct H as [H | H]; [discriminate|]). exact H.
Defined.

(** ** The data of the command line *)

Lemma truthy_false_cases o :
  FireBench.truthy o = false -> o = None \/ o = Some "".
Proof.
  destruct o as [[|c s] |]; simpl; intro H; auto; discriminate.
Qed.

(** X14: the data file is the only thing [_main] checks.  The processing
    of the data fails exactly when the request type is not GET, no
    [--data] text is given, and [--data-binary] names a path that is not
    a file or that cannot be opened and read.  [_main] then raises
    before any run starts: [ArgumentTypeError] for a path that is not a
    file, the exception of [open] or [read] otherwise.  For GET the file
    is not looked at. *)
Theorem data_file_checked_before_runs (fs : FireBench.FileSystem)
    (args : FireBench.Args) (worlds : list RunWorld) :
  ((exists exc, FireBench.process_data fs args = inl exc)
   <-> upper (FireBench.request_type args) <> "GET" /\
       FireBench.truthy (FireBench.data args) = false /\
       exists path, FireBench.data_binary args = Some path /\
                    path <> "" /\
                    (FireBench.isfile fs path = false \/
                     FireBench.open_error fs path <> None)) /\
  (forall path,
      upper (FireBench.request_type args) <> "GET" ->
      FireBench.truthy (FireBench.data args) = false ->
      FireBench.data_binary args = Some path -> path <> "" ->
      (FireBench.isfile fs path = false ->
       FireBench._main fs args worlds
       = ([], Raise (ArgumentTypeError
                       ("The file '" ++ path ++ "' does not exist.")))) /\
      (FireBench.isfile fs path = true ->
       forall exc, FireBench.open_error fs path = Some exc ->
                   FireBench._main fs args worlds = ([], Raise exc))).
Proof.
  split.
  - unfold FireBench.process_data, FireBench._parse_binary_from_file.
    destruct (String.eqb_spec (upper (FireBench.request_type args)) "GET")
      as [Hget | Hget]; cbn [negb].
    + split; [intros [exc H]; discriminate | intros [H _]; contradiction].
    + destruct (FireBench.truthy (FireBench.data args)) eqn:Hd.
      * split; [intros [exc H]; discriminate|].
        intros (_ & H & _). discriminate.
      * destruct (FireBench.data_binary args) as [[|c path] |] eqn:Hb;
          cbn [FireBench.truthy].
        -- split; [intros [exc H]; discriminate|].
           intros (_ & _ & path & Hp & Hne & _). inversion Hp. congruence.
        -- destruct (FireBench.isfile fs (String c path)) eqn:Hf; cbn [negb].
           ++ destruct (FireBench.open_error fs (String c path)) as [exc |]
                eqn:Ho.
              ** split; [|intros _; eexists; reflexivity].
                 intros _. split; [exact Hget|]. split; [reflexivity|].
                 exists (String c path).
                 split; [reflexivity|]. split; [discriminate|].
                 right. rewrite Ho. discriminate.
              ** split; [intros [exc H]; discriminate|].
                 intros (_ & _ & path' & Hp & _ & [Hf' | Ho']);
                   inversion Hp; subst; congruence.
           ++ split; [|intros _; eexists; reflexivity].
              intros _. split; [exact Hget|]. split; [reflexivity|].
              exists (String c path).
              split; [reflexivity|]. split; [discriminate|].
              left. exact Hf.
        -- split; [intros [exc H]; discriminate|].
           intros (_ & _ & path & Hp & _). discriminate.
  - intros path Hget Hd Hb Hne.
    unfold FireBench._main, FireBench.process_data,
      FireBench._parse_binary_from_file.
    apply String.eqb_neq in Hget. rewrite Hget, Hd, Hb. cbn [negb].
    destruct path as [|c path]; [congruence|]. cbn [FireBench.truthy].
    split.
    + intro Hf. rewrite Hf. reflexivity.
    + intros Hf exc Ho. rewrite Hf, Ho. reflexivity.
Qed.

Lemma data_file_checked_before_runs_witness :
  FireBench._main no_files args_post_file [world1]
  = ([], Raise (ArgumentTypeError "The file 'body.bin' does not exist.")).
Proof.
  destruct (data_file_checked_before_runs no_files args_post_file [world1])
    as [_ H].
  destruct (H "body.bin") as [Hmissing _].
  - discriminate.
  - reflexivity.
  - reflexivity.
  - discriminate.
  - apply Hmissing. reflexivity.
Defined.

(** A file that exists and cannot be read. *)
Example unreadable_file :
  FireBench._main
    {| FireBench.isfile := fun _ => true;
       FireBench.open_error := fun _ => Some (OSError "Permission denied");
       FireBench.read := fun _ => "" |}
    args_post_file [world1]
  = ([], Raise (OSError "Permission denied")).
Proof. reflexivity. Qed.

Lemma main_requests fs header args worlds d :
  FireBench.process_data fs args = inr d ->
  Forall (fun e => exists outcome,
            e = Request (upper (FireBench.request_type args))
                  (FireBench.url args) d outcome)
         (requests (fst (FireBenchMain._main fs header args worlds))).
Proof.
  intro Hd. unfold FireBenchMain._main.
  destruct (FireBenchMain.process_headers header) as [exc | hs];
    [constructor|].
  unfold FireBench._main.
  change (FireBench.process_data fs (FireBenchMain.with_header args hs))
    with (FireBench.process_data fs args).
  rewrite Hd.
  pose proof (benchmark_requests_carry
                (FireBench.benchmark (FireBenchMain.with_header args hs) d)
                worlds) as H.
  cbn [FireBench.benchmark FireBenchMain.with_header
       HTTPBenchmark.request_type HTTPBenchmark.url HTTPBenchmark.data
       HTTPBenchmark.__init__ FireBench.request_type FireBench.url] in H.
  rewrite upper_idempotent in H.
  exact H.
Qed.

Lemma main_requests_fail fs header args worlds exc :
  FireBench.process_data fs args = inl exc ->
  requests (fst (FireBenchMain._main fs header args worlds)) = [].
Proof.
  intro Hd. unfold FireBenchMain._main.
  destruct (FireBenchMain.process_headers header) as [exc' | hs];
    [reflexivity|].
  unfold FireBench._main.
  change (FireBench.process_data fs (FireBenchMain.with_header args hs))
    with (FireBench.process_data fs args).
  rewrite Hd. reflexivity.
Qed.

(** X15: from the command line, every request of a GET benchmark is sent
    with the empty string as its data, whatever [--data] or
    [--data-binary] says; for another request type, every request carries
    the [--data] text as it is, or else the content of the
    [--data-binary] file. *)
Theorem command_line_request_data (fs : FireBench.FileSystem)
    (header : option (list string)) (args : FireBench.Args)
    (worlds : list RunWorld) :
  let sent := requests (fst (FireBenchMain._main fs header args worlds)) in
  let method := upper (FireBench.request_type args) in
  let carries (d : Data) :=
    Forall (fun e => exists outcome,
              e = Request method (FireBench.url args) d outcome) sent in
  (method = "GET" -> carries (DataStr "")) /\
  (method <> "GET" ->
   forall text, FireBench.data args = Some text -> text <> "" ->
                carries (DataStr text)) /\
  (method <> "GET" -> FireBench.truthy (FireBench.data args) = false ->
   forall path, FireBench.data_binary args = Some path -> path <> "" ->
                FireBench.isfile fs path = true ->
                carries (DataBytes (FireBench.read fs path))).
Proof.
  cbv zeta. split; [|split].
  - intro Hget. apply main_requests.
    unfold FireBench.process_data. rewrite Hget. reflexivity.
  - intros Hget text Hd Hne. apply main_requests.
    unfold FireBench.process_data.
    apply String.eqb_neq in Hget. rewrite Hget, Hd. simpl.
    destruct text; [congruence | reflexivity].
  - intros Hget Hd path Hb Hne Hf.
    assert (Hdata : FireBench.process_data fs args
                    = match FireBench.open_error fs path with
                      | Some exc => inl exc
                      | None => inr (DataBytes (FireBench.read fs path))
                      end).
    { unfold FireBench.process_data, FireBench._parse_binary_from_file.
      apply String.eqb_neq in Hget. rewrite Hget, Hd, Hb. cbn [negb].
      destruct path as [|c path]; [congruence|]. cbn [FireBench.truthy].
      rewrite Hf. cbn [negb].
      destruct (FireBench.open_error fs (String c path)); reflexivity. }
    destruct (FireBench.open_error fs path) as [exc |].
    + rewrite (main_requests_fail _ _ _ _ _ Hdata). constructor.
    + apply main_requests. exact Hdata.
Qed.

Lemma command_line_request_data_witness :
  Forall (fun e => exists outcome,
            e = Request "GET" "http://example.com" (DataStr "") outcome)
         (requests
            (fst (FireBenchMain._main no_files (Some ["Accept: */*"])
                    args_get_text [world2]))).
Proof.
  destruct (command_line_request_data no_files (Some ["Accept: */*"])
              args_get_text [world2]) as [H _].
  apply H. reflexivity.
Defined.

(** The requests of that command line. *)
Example command_line_get_requests :
  requests
    (fst (FireBenchMain._main no_files (Some ["Accept: */*"]) args_get_text
            [world2]))
  = [ Request "GET" "http://example.com" (DataStr "") (Responded 200 "ok");
      Request "GET" "http://example.com" (DataStr "")
        (Raised "ClientConnectorError");
      Request "GET" "http://example.com" (DataStr "") (Responded 200 "ok");
      Request "GET" "http://example.com" (DataStr "") (Responded 200 "ok") ].
Proof. vm_compute. reflexivity. Qed.

(** One error in forty attempts: the quotient is the double just above
    0.025 and is printed "0.03"; three in two hundred, the double just
    below 0.015, is printed "0.01". *)
Example error_rate_near_a_tie :
  dict_get
    (match reduce gen2 (repeat 1%Q 39) [1] with Ok m => m | _ => [] end)
    "Error Rate (%)"
  = Some (PyStr "0.03") /\
  format_2f (float_div 3 200) = "0.01".
Proof. split; vm_compute; reflexivity. Qed.
